(** * Document validation agent: the retrieval and reporting pipeline

    A shallow embedding of [Updated Document validation agent/app.py]:
    [chunk_text], [embed_chunks], [build_vector_store], [semantic_search],
    [analyze_document_with_ai], [parse_ai_json] and the report assembled at
    the end of [validate_document].

    Python values are an inductive type, exceptions are values of [exn]
    carried by [outcome], the [while] loop of [chunk_text] runs on fuel,
    and the HTTP providers are state-passing functions on an abstract world. *)

From Stdlib Require Import ZArith List String Ascii Bool Lia Permutation.
Import ListNotations.
Set Warnings "-register-all".
Local Open Scope string_scope.
Local Open Scope Z_scope.

(** ** Python values, exceptions and outcomes *)

(** The values that flow through the pipeline: what a JSON document decodes
    to, plus the error dictionaries the code builds.  A float is kept as the
    literal that denotes it.  A [dict] is an association list in insertion
    order whose keys are unique. *)
Inductive pyval : Type :=
| PNone
| PBool (b : bool)
| PInt (z : Z)
| PFloat (literal : string)
| PStr (s : string)
| PList (l : list pyval)
| PDict (d : list (string * pyval)).

(** The exceptions the code raises itself or receives from the runtime. *)
Inductive exn : Type :=
| TypeError
| KeyError
| IndexError
| AttributeError
| ValueError
| AssertionError
| JSONDecodeError
| RuntimeError (msg : string)
| RequestException
| HTTPException (status_code : Z) (detail : string).

Inductive outcome (A : Type) : Type :=
| Returned (a : A)
| Raised (e : exn).
Arguments Returned {A} a.
Arguments Raised {A} e.

Definition bind {A B : Type} (m : outcome A) (k : A -> outcome B) : outcome B :=
  match m with
  | Returned a => k a
  | Raised e => Raised e
  end.

Notation "x <- m ;; k" := (bind m (fun x => k))
  (at level 61, m at next level, right associativity).

(** [try: m except Exception: h] *)
Definition try_except {A : Type} (m : outcome A) (h : A) : A :=
  match m with
  | Returned a => a
  | Raised _ => h
  end.

(** ** Strings and sequences *)

Definition len (s : string) : Z := Z.of_nat (String.length s).

(** Index adjustment of a slice bound (step 1): a negative bound counts from
    the end, and every bound is clipped to [0, len]. *)
Definition adjust_index (n i : Z) : Z :=
  if i <? 0 then Z.max 0 (i + n) else Z.min i n.

(** [s[start:stop]] *)
Definition str_slice (s : string) (start stop : Z) : string :=
  let lo := adjust_index (len s) start in
  let hi := adjust_index (len s) stop in
  substring (Z.to_nat lo) (Z.to_nat (hi - lo)) s.

(** [s * n] *)
Fixpoint str_mul (s : string) (n : nat) : string :=
  match n with
  | O => EmptyString
  | S n' => s ++ str_mul s n'
  end.

(** [sep.join(parts)] *)
Definition str_join (sep : string) (parts : list string) : string :=
  String.concat sep parts.

(** ** Chunking *)

(** The loop of [chunk_text]: [start] and [chunks] are the two variables the
    loop updates.  [None] means the fuel ran out before the loop condition
    became false. *)
Fixpoint chunk_loop (fuel : nat) (text : string) (chunk_size overlap : Z)
    (start : Z) (chunks : list string) : option (list string) :=
  match fuel with
  | O => None
  | S fuel' =>
      if start <? len text then
        let end_ := start + chunk_size in
        chunk_loop fuel' text chunk_size overlap (end_ - overlap)
                   (chunks ++ [str_slice text start end_])
      else Some chunks
  end.

Definition chunk_text (fuel : nat) (text : string) (chunk_size overlap : Z)
    : option (list string) :=
  chunk_loop fuel text chunk_size overlap 0 [].

(** [chunk_text(text, chunk_size, overlap)] returns [chunks]. *)
Definition chunk_text_returns (text : string) (chunk_size overlap : Z)
    (chunks : list string) : Prop :=
  exists fuel, chunk_text fuel text chunk_size overlap = Some chunks.

(** The defaults of the signature. *)
Definition default_chunk_size : Z := 800.
Definition default_overlap : Z := 100.

(** Ceiling of [a / b] for positive [b]. *)
Definition ceil_div (a b : Z) : Z := - ((- a) / b).

(** The window that starts at [start + k * step], for [k < n]. *)
Definition windows (text : string) (chunk_size step start : Z) (n : nat)
    : list string :=
  map (fun k => str_slice text (start + Z.of_nat k * step)
                               (start + Z.of_nat k * step + chunk_size))
      (seq 0 n).

(** The chunk count the specification gives. *)
Definition spec_chunk_count (text : string) (chunk_size overlap : Z) : Z :=
  ceil_div (len text - overlap) (chunk_size - overlap).

(** The chunk count of the loop. *)
Definition chunk_count (text : string) (chunk_size overlap : Z) : Z :=
  ceil_div (len text) (chunk_size - overlap).


(** ** Truth value, attribute and subscript access *)

Definition is_digit (c : ascii) : bool :=
  let n := nat_of_ascii c in (48 <=? n)%nat && (n <=? 57)%nat.

Definition digit_value (c : ascii) : Z := Z.of_nat (nat_of_ascii c) - 48.

(** The mantissa of a float literal, up to its exponent mark: the integer
    its digits spell without the point, the number of digits after the
    point, and the text after the exponent mark. *)
Fixpoint scan_mantissa (s : string) (in_fraction : bool) (digits scale : Z)
    : Z * Z * string :=
  match s with
  | EmptyString => (digits, scale, EmptyString)
  | String c s' =>
      if (Ascii.eqb c "e" || Ascii.eqb c "E")%bool then (digits, scale, s')
      else if Ascii.eqb c "." then scan_mantissa s' true digits scale
      else if is_digit c then
        scan_mantissa s' in_fraction (10 * digits + digit_value c)
                      (if in_fraction then scale + 1 else scale)
      else scan_mantissa s' in_fraction digits scale
  end.

Fixpoint scan_digits (s : string) (acc : Z) : Z :=
  match s with
  | EmptyString => acc
  | String c s' =>
      if is_digit c then scan_digits s' (10 * acc + digit_value c) else acc
  end.

(** The exponent of a float literal: an optional sign and digits. *)
Definition scan_exponent (s : string) : Z :=
  match s with
  | String "-" s' => - scan_digits s' 0
  | String "+" s' => scan_digits s' 0
  | _ => scan_digits s 0
  end.

(** Whether a float literal denotes a float other than zero.  The literal
    spells the decimal number [digits * 10 ^ k]; [float] rounds it to the
    nearest double, ties to even, so the float is zero exactly when the
    number is at most [2 ^ -1075], half the smallest positive double.
    [NaN] and the infinities are not zero. *)
Definition float_nonzero (literal : string) : bool :=
  match literal with
  | "NaN" | "Infinity" | "-Infinity" => true
  | _ =>
      let '(digits, scale, rest) := scan_mantissa literal false 0 0 in
      let k := scan_exponent rest - scale in
      negb (digits =? 0) && ((0 <=? k) || (10 ^ (- k) <? digits * 2 ^ 1075))
  end.

(** [bool(v)], the test behind [if v], [not v] and [a or b]. *)
Definition truthy (v : pyval) : bool :=
  match v with
  | PNone => false
  | PBool b => b
  | PInt z => negb (z =? 0)
  | PFloat literal => float_nonzero literal
  | PStr s => negb (String.eqb s "")
  | PList l => match l with [] => false | _ => true end
  | PDict d => match d with [] => false | _ => true end
  end.

Fixpoint dict_lookup (d : list (string * pyval)) (k : string) : option pyval :=
  match d with
  | [] => None
  | (k', v) :: d' => if String.eqb k' k then Some v else dict_lookup d' k
  end.

(** [d[k] = v]: an existing key keeps its place and takes the new value. *)
Fixpoint dict_set (d : list (string * pyval)) (k : string) (v : pyval)
    : list (string * pyval) :=
  match d with
  | [] => [(k, v)]
  | (k', v') :: d' =>
      if String.eqb k' k then (k', v) :: d' else (k', v') :: dict_set d' k v
  end.

(** [obj.get(k, default)]: only a [dict] has the method. *)
Definition py_get (obj : pyval) (k : string) (default : pyval) : outcome pyval :=
  match obj with
  | PDict d =>
      match dict_lookup d k with
      | Some v => Returned v
      | None => Returned default
      end
  | _ => Raised AttributeError
  end.

(** [l[i]] on a sequence: a negative index counts from the end. *)
Definition list_getitem {A : Type} (l : list A) (i : Z) : outcome A :=
  let n := Z.of_nat (List.length l) in
  let j := if i <? 0 then i + n else i in
  if (0 <=? j) && (j <? n) then
    match nth_error l (Z.to_nat j) with
    | Some x => Returned x
    | None => Raised IndexError
    end
  else Raised IndexError.

Inductive key : Type :=
| KStr (s : string)
| KInt (i : Z).

(** [obj[k]] *)
Definition py_getitem (obj : pyval) (k : key) : outcome pyval :=
  match obj, k with
  | PDict d, KStr s =>
      match dict_lookup d s with
      | Some v => Returned v
      | None => Raised KeyError
      end
  | PDict _, KInt _ => Raised KeyError
  | PList l, KInt i => list_getitem l i
  | PList _, KStr _ => Raised TypeError
  | PStr s, KInt i =>
      c <- list_getitem (list_ascii_of_string s) i ;;
      Returned (PStr (String c EmptyString))
  | PStr _, KStr _ => Raised TypeError
  | _, _ => Raised TypeError
  end.

(** [len(obj)] *)
Definition py_len (obj : pyval) : outcome Z :=
  match obj with
  | PStr s => Returned (len s)
  | PList l => Returned (Z.of_nat (List.length l))
  | PDict d => Returned (Z.of_nat (List.length d))
  | _ => Raised TypeError
  end.

(** ** The response parser *)

(** [re.sub] with the pattern of the two fence markers, alternative
    [```json] first, and the empty replacement: scanning from the left, every
    match of the first alternative that fits is dropped; [skip] counts the
    characters of the current match still to drop. *)
Fixpoint re_sub_fences (skip : nat) (s : string) : string :=
  match s with
  | EmptyString => EmptyString
  | String c s' =>
      match skip with
      | S k => re_sub_fences k s'
      | O =>
          if prefix "```json" s then re_sub_fences 6 s'
          else if prefix "```" s then re_sub_fences 2 s'
          else String c (re_sub_fences 0 s')
      end
  end.

(** [str.isspace] on code points below 256. *)
Definition isspace (c : ascii) : bool :=
  let n := nat_of_ascii c in
  ((9 <=? n)%nat && (n <=? 13)%nat) || ((28 <=? n)%nat && (n <=? 32)%nat)
  || (n =? 133)%nat || (n =? 160)%nat.

Fixpoint lstrip (s : string) : string :=
  match s with
  | EmptyString => EmptyString
  | String c s' => if isspace c then lstrip s' else s
  end.

Fixpoint rstrip (s : string) : string :=
  match s with
  | EmptyString => EmptyString
  | String c s' =>
      match rstrip s' with
      | EmptyString => if isspace c then EmptyString else String c EmptyString
      | r => String c r
      end
  end.

(** [s.strip()] *)
Definition strip (s : string) : string := rstrip (lstrip s).

Section Parser.

(** [json.loads] of the standard library. *)
Variable json_loads : string -> outcome pyval.

(** [parse_ai_json(ai_text)].  The annotation [str] is not enforced: the
    caller passes whatever [analyze_document_with_ai] returned.  [re.sub]
    raises [TypeError] on anything but a string, and the handler catches
    [json.JSONDecodeError] only. *)
Definition parse_ai_json (ai_text : pyval) : outcome pyval :=
  if negb (truthy ai_text) then
    Returned (PDict [("error", PStr "Empty AI response")])
  else
    match ai_text with
    | PStr s =>
        let cleaned := strip (re_sub_fences 0 s) in
        match json_loads cleaned with
        | Returned v => Returned v
        | Raised JSONDecodeError =>
            Returned (PDict [("error", PStr "Invalid JSON returned by AI");
                             ("raw_response", ai_text)])
        | Raised e => Raised e
        end
    | _ => Raised TypeError
    end.

End Parser.

(** The mapping returned when decoding fails. *)
Definition fallback_mapping (raw : pyval) : pyval :=
  PDict [("error", PStr "Invalid JSON returned by AI"); ("raw_response", raw)].

(** The mapping returned for a falsy input. *)
Definition empty_response_mapping : pyval :=
  PDict [("error", PStr "Empty AI response")].

(** [d.get(k, default)] on the entries of a [dict]. *)
Definition get_or (d : list (string * pyval)) (k : string) (default : pyval)
    : pyval :=
  match dict_lookup d k with
  | Some v => v
  | None => default
  end.

Definition is_mapping (v : pyval) : bool :=
  match v with
  | PDict _ => true
  | _ => false
  end.

(** ** A reference JSON decoder

    The decoder the concrete scenarios run on: the grammar [json.loads]
    accepts, over strings of code points below 256.  Floats keep their
    literal; an escape [\uXXXX] that names a code point beyond 255 has no
    value in this string model and is reported as a decoding error. *)
Module Json.

Definition dquote : ascii := "034"%char.
Definition backslash : ascii := "092"%char.

(** The whitespace the decoder skips: space, tab, line feed, carriage return. *)
Definition is_ws (c : ascii) : bool :=
  (Ascii.eqb c " " || Ascii.eqb c "009" || Ascii.eqb c "010" || Ascii.eqb c "013")%bool.

Fixpoint skip_ws (s : string) : string :=
  match s with
  | EmptyString => EmptyString
  | String c s' => if is_ws c then skip_ws s' else s
  end.

(** The rest of [s] after the prefix [p], when [s] starts with [p]. *)
Fixpoint strip_prefix (p s : string) : option string :=
  match p, s with
  | EmptyString, _ => Some s
  | String a p', String b s' => if Ascii.eqb a b then strip_prefix p' s' else None
  | String _ _, EmptyString => None
  end.

Fixpoint span_digits (s : string) : string * string :=
  match s with
  | EmptyString => (EmptyString, EmptyString)
  | String c s' =>
      if is_digit c then
        let (ds, rest) := span_digits s' in (String c ds, rest)
      else (EmptyString, s)
  end.

Fixpoint digits_value (acc : Z) (ds : string) : Z :=
  match ds with
  | EmptyString => acc
  | String c ds' => digits_value (10 * acc + (Z.of_nat (nat_of_ascii c) - 48)) ds'
  end.

(** The fraction at the head of [s], if any: a dot and at least one digit. *)
Definition match_frac (s : string) : string * string :=
  match s with
  | String "." s' =>
      match span_digits s' with
      | (EmptyString, _) => (EmptyString, s)
      | (ds, rest) => (String "." ds, rest)
      end
  | _ => (EmptyString, s)
  end.

(** The exponent at the head of [s], if any: e or E, an optional sign and
    at least one digit. *)
Definition match_exp (s : string) : string * string :=
  match s with
  | String e s' =>
      if (Ascii.eqb e "e" || Ascii.eqb e "E")%bool then
        let (sign, s'') :=
          match s' with
          | String g t =>
              if (Ascii.eqb g "-" || Ascii.eqb g "+")%bool
              then (String g EmptyString, t) else (EmptyString, s')
          | EmptyString => (EmptyString, s')
          end in
        match span_digits s'' with
        | (EmptyString, _) => (EmptyString, s)
        | (ds, rest) => (String e (sign ++ ds), rest)
        end
      else (EmptyString, s)
  | EmptyString => (EmptyString, s)
  end.

(** A number: an optional minus sign, then 0 or a digit sequence that does
    not start with 0, then an optional fraction and an optional exponent.
    It is an integer when neither fraction nor exponent is present, a
    float otherwise. *)
Definition match_number (s : string) : option (pyval * string) :=
  let (neg, s1) :=
    match s with
    | String "-" t => (true, t)
    | _ => (false, s)
    end in
  match span_digits s1 with
  | (EmptyString, _) => None
  | (String d ds, rest) =>
      let (int_part, after_int) :=
        if Ascii.eqb d "0" then (String d EmptyString, ds ++ rest)
        else (String d ds, rest) in
      let (frac, after_frac) := match_frac after_int in
      let (exp, after_exp) := match_exp after_frac in
      match frac, exp with
      | EmptyString, EmptyString =>
          let n := digits_value 0 int_part in
          Some (PInt (if neg then - n else n), after_exp)
      | _, _ =>
          Some (PFloat ((if neg then "-" else "") ++ int_part ++ frac ++ exp),
                after_exp)
      end
  end.

Definition hex_value (c : ascii) : option Z :=
  let n := Z.of_nat (nat_of_ascii c) in
  if (48 <=? n) && (n <=? 57) then Some (n - 48)
  else if (65 <=? n) && (n <=? 70) then Some (n - 55)
  else if (97 <=? n) && (n <=? 102) then Some (n - 87)
  else None.

Definition hex4 (a b c d : ascii) : option Z :=
  match hex_value a, hex_value b, hex_value c, hex_value d with
  | Some x, Some y, Some z, Some w => Some (((x * 16 + y) * 16 + z) * 16 + w)
  | _, _, _, _ => None
  end.

(** The character a one-letter escape stands for. *)
Definition unescape (e : ascii) : option ascii :=
  if Ascii.eqb e dquote then Some dquote
  else if Ascii.eqb e backslash then Some backslash
  else if Ascii.eqb e "/" then Some "/"%char
  else if Ascii.eqb e "b" then Some "008"%char
  else if Ascii.eqb e "f" then Some "012"%char
  else if Ascii.eqb e "n" then Some "010"%char
  else if Ascii.eqb e "r" then Some "013"%char
  else if Ascii.eqb e "t" then Some "009"%char
  else None.

Definition cons_char (c : ascii) (r : option (string * string))
    : option (string * string) :=
  match r with
  | Some (str, rest) => Some (String c str, rest)
  | None => None
  end.

(** The body of a string after its opening quote (strict mode: a control
    character ends the decoding with an error). *)
Fixpoint scanstring (s : string) : option (string * string) :=
  match s with
  | EmptyString => None
  | String c s' =>
      if Ascii.eqb c dquote then Some (EmptyString, s')
      else if Ascii.eqb c backslash then
        match s' with
        | EmptyString => None
        | String e s'' =>
            if Ascii.eqb e "u" then
              match s'' with
              | String h1 (String h2 (String h3 (String h4 s3))) =>
                  match hex4 h1 h2 h3 h4 with
                  | Some n =>
                      if n <? 256
                      then cons_char (ascii_of_nat (Z.to_nat n)) (scanstring s3)
                      else None
                  | None => None
                  end
              | _ => None
              end
            else
              match unescape e with
              | Some c' => cons_char c' (scanstring s'')
              | None => None
              end
        end
      else if (nat_of_ascii c <? 32)%nat then None
      else cons_char c (scanstring s')
  end.

(** [scan_once] with the loops of the object and array decoders: [None] is
    the decoder's [StopIteration] or [JSONDecodeError]. *)
Fixpoint scan_once (fuel : nat) (s : string) : option (pyval * string) :=
  match fuel with
  | O => None
  | S fuel' =>
      match s with
      | EmptyString => None
      | String c rest =>
          if Ascii.eqb c dquote then
            match scanstring rest with
            | Some (str, rest') => Some (PStr str, rest')
            | None => None
            end
          else if Ascii.eqb c "{" then
            match skip_ws rest with
            | String c' rest' =>
                if Ascii.eqb c' "}" then Some (PDict [], rest')
                else object_items fuel' (skip_ws rest) []
            | EmptyString => None
            end
          else if Ascii.eqb c "[" then
            match skip_ws rest with
            | String c' rest' =>
                if Ascii.eqb c' "]" then Some (PList [], rest')
                else array_items fuel' (skip_ws rest) []
            | EmptyString => None
            end
          else
            match strip_prefix "null" s, strip_prefix "true" s, strip_prefix "false" s with
            | Some r, _, _ => Some (PNone, r)
            | _, Some r, _ => Some (PBool true, r)
            | _, _, Some r => Some (PBool false, r)
            | None, None, None =>
                match match_number s with
                | Some r => Some r
                | None =>
                    match strip_prefix "NaN" s, strip_prefix "Infinity" s,
                          strip_prefix "-Infinity" s with
                    | Some r, _, _ => Some (PFloat "NaN", r)
                    | _, Some r, _ => Some (PFloat "Infinity", r)
                    | _, _, Some r => Some (PFloat "-Infinity", r)
                    | None, None, None => None
                    end
                end
            end
      end
  end

with object_items (fuel : nat) (s : string) (pairs : list (string * pyval))
    : option (pyval * string) :=
  match fuel with
  | O => None
  | S fuel' =>
      match s with
      | String q s1 =>
          if Ascii.eqb q dquote then
            match scanstring s1 with
            | Some (k, s2) =>
                match skip_ws s2 with
                | String colon s3 =>
                    if Ascii.eqb colon ":" then
                      match scan_once fuel' (skip_ws s3) with
                      | Some (v, s4) =>
                          let pairs' := dict_set pairs k v in
                          match skip_ws s4 with
                          | String c s5 =>
                              if Ascii.eqb c "}" then Some (PDict pairs', s5)
                              else if Ascii.eqb c "," then
                                object_items fuel' (skip_ws s5) pairs'
                              else None
                          | EmptyString => None
                          end
                      | None => None
                      end
                    else None
                | EmptyString => None
                end
            | None => None
            end
          else None
      | EmptyString => None
      end
  end

with array_items (fuel : nat) (s : string) (values : list pyval)
    : option (pyval * string) :=
  match fuel with
  | O => None
  | S fuel' =>
      match scan_once fuel' s with
      | Some (v, s1) =>
          let values' := (values ++ [v])%list in
          match skip_ws s1 with
          | String c s2 =>
              if Ascii.eqb c "]" then Some (PList values', s2)
              else if Ascii.eqb c "," then array_items fuel' (skip_ws s2) values'
              else None
          | EmptyString => None
          end
      | None => None
      end
  end.

(** [json.loads(s)]: one value, surrounded by whitespace only. *)
Definition loads (s : string) : outcome pyval :=
  match scan_once (2 * String.length s + 2) (skip_ws s) with
  | Some (v, rest) =>
      match skip_ws rest with
      | EmptyString => Returned v
      | _ => Raised JSONDecodeError
      end
  | None => Raised JSONDecodeError
  end.

(** A string in double quotes, for writing JSON texts. *)
Definition quoted (s : string) : string :=
  String dquote (s ++ String dquote EmptyString).

End Json.

(** ** The providers and the pipeline *)

Inductive endpoint : Type :=
| Embeddings
| ChatCompletions.

(** What the code reads of a [requests] response. *)
Record response : Type := { status_code : Z; text : string }.

(** An entry of the list [embed_chunks] builds. *)
Record embedded : Type := { emb_text : string; embedding : pyval }.

Definition newline : string := String "010" EmptyString.

(** The error value of [analyze_document_with_ai] for a status other than
    200. *)
Definition analysis_unavailable (res : response) : pyval :=
  PDict [("error", PStr "AI analysis unavailable");
         ("status_code", PInt (status_code res));
         ("response", PStr (text res))].

(** [[f(x) for x in l]]: the first exception ends the comprehension. *)
Fixpoint map_outcome {A B : Type} (f : A -> outcome B) (l : list A)
    : outcome (list B) :=
  match l with
  | [] => Returned []
  | x :: l' =>
      y <- f x ;;
      ys <- map_outcome f l' ;;
      Returned (y :: ys)
  end.

(** The report [validate_document] returns, from the parsed mapping on. *)
Definition aggregate (ai_parsed : pyval) : outcome pyval :=
  missing <- py_get ai_parsed "missing_fields" (PList []) ;;
  risks <- py_get ai_parsed "risks" (PList []) ;;
  let invalid := PList [] in
  let status :=
    if truthy missing || truthy invalid || truthy risks
    then "NEEDS_ATTENTION" else "CLEAR" in
  document_type <- py_get ai_parsed "document_type" (PStr "Unknown") ;;
  message <- py_get ai_parsed "summary" (PStr "Document analysis completed.") ;;
  Returned (PDict [("document_type", document_type);
                   ("status", PStr status);
                   ("issues", PDict [("missing_fields", missing);
                                     ("invalid_fields", invalid);
                                     ("risks", risks)]);
                   ("message", message)]).

Definition MAX_CONTEXT_CHARS : Z := 2500.

(** [context = newline.join(relevant_chunks)] cut to [MAX_CONTEXT_CHARS]. *)
Definition assemble_context (relevant_chunks : list string) : string :=
  let context := str_join newline relevant_chunks in
  str_slice context 0 MAX_CONTEXT_CHARS.

(** The runtime the pipeline runs in: [json.loads], behind [res.json()] and
    [parse_ai_json], and the outside world.  [requests.post] to an endpoint,
    with the text the request carries (the chunk or query to embed, or the
    context placed in the fixed prompt), answers with a response or raises,
    and moves the world on. *)
Class Runtime (world : Type) : Type := {
  json_loads : string -> outcome pyval;
  post : endpoint -> string -> world -> outcome response * world
}.

(** 32-bit floats with their arithmetic, and [np.array(rows, dtype=float32)]. *)
Class Float32 : Type := {
  scalar : Type;
  fzero : scalar;
  fadd : scalar -> scalar -> scalar;
  fsub : scalar -> scalar -> scalar;
  fmul : scalar -> scalar -> scalar;
  fleb : scalar -> scalar -> bool;
  np_array_float32 : list pyval -> outcome (list (list scalar))
}.

(** [faiss.IndexFlatL2]: the dimension and the stored vectors. *)
Record index `{Float32} : Type := { d : Z; xb : list (list scalar) }.

Section Pipeline.

Context {world : Type} {RT : Runtime world} {F32 : Float32}.

(** Computations that call the providers. *)
Definition M (A : Type) : Type := world -> outcome A * world.

Definition ret {A : Type} (a : A) : M A := fun w => (Returned a, w).

Definition raise {A : Type} (e : exn) : M A := fun w => (Raised e, w).

Definition lift {A : Type} (o : outcome A) : M A := fun w => (o, w).

Definition bindM {A B : Type} (m : M A) (k : A -> M B) : M B :=
  fun w =>
    match m w with
    | (Returned a, w') => k a w'
    | (Raised e, w') => (Raised e, w')
    end.

Notation "x <~ m ;; k" := (bindM m (fun x => k))
  (at level 61, m at next level, right associativity).

(** [res.json()["data"][0]["embedding"]] *)
Definition embedding_of (res : response) : outcome pyval :=
  body <- json_loads (text res) ;;
  data <- py_getitem body (KStr "data") ;;
  first <- py_getitem data (KInt 0) ;;
  py_getitem first (KStr "embedding").

(** The [for] loop of [embed_chunks]. *)
Fixpoint embed_loop (chunks : list string) (embeddings : list embedded)
    : M (list embedded) :=
  match chunks with
  | [] => ret embeddings
  | chunk :: rest =>
      res <~ post Embeddings chunk ;;
      if negb (status_code res =? 200) then
        raise (RuntimeError "Embedding generation failed")
      else
        e <~ lift (embedding_of res) ;;
        embed_loop rest
          (embeddings ++ [{| emb_text := chunk; embedding := e |}])
  end.

Definition embed_chunks (chunks : list string) : M (list embedded) :=
  embed_loop chunks [].

(** [index.add(vectors)] checks the width of every row. *)
Definition index_add (idx : index) (vectors : list (list scalar))
    : outcome index :=
  if forallb (fun v => Z.of_nat (List.length v) =? d idx) vectors
  then Returned {| d := d idx; xb := xb idx ++ vectors |}
  else Raised AssertionError.

Definition build_vector_store (embedded_chunks : list embedded)
    : outcome (index * list string) :=
  first <- list_getitem embedded_chunks 0 ;;
  dim <- py_len (embedding first) ;;
  let index := {| d := dim; xb := [] |} in
  vectors <- np_array_float32 (map embedding embedded_chunks) ;;
  index <- index_add index vectors ;;
  let texts := map emb_text embedded_chunks in
  Returned (index, texts).

(** Squared Euclidean distance. *)
Definition l2sqr (x y : list scalar) : scalar :=
  fold_left fadd
    (map (fun p => fmul (fsub (fst p) (snd p)) (fsub (fst p) (snd p)))
         (combine x y))
    fzero.

Fixpoint insert_by (p : scalar * Z) (l : list (scalar * Z))
    : list (scalar * Z) :=
  match l with
  | [] => [p]
  | q :: l' => if fleb (fst p) (fst q) then p :: l else q :: insert_by p l'
  end.

(** The labels of the stored vectors, closest first. *)
Definition nearest (idx : index) (q : list scalar) : list Z :=
  let labels := map Z.of_nat (seq 0 (List.length (xb idx))) in
  let distances := map (l2sqr q) (xb idx) in
  map snd (fold_right insert_by [] (combine distances labels)).

(** A result row has exactly [k] labels: where the index holds fewer than
    [k] vectors the row is filled up with the label -1. *)
Definition pad_labels (k : nat) (labels : list Z) : list Z :=
  let found := firstn k labels in
  found ++ repeat (-1) (k - List.length found).

(** [index.search(queries, k)], the label matrix of the result. *)
Definition index_search (idx : index) (queries : list (list scalar)) (k : Z)
    : outcome (list (list Z)) :=
  if forallb (fun v => Z.of_nat (List.length v) =? d idx) queries then
    if 0 <? k then
      Returned (map (fun q => pad_labels (Z.to_nat k) (nearest idx q)) queries)
    else Raised AssertionError
  else Raised AssertionError.

Definition semantic_search (index : index) (texts : list string)
    (query : string) (top_k : Z) : M (list string) :=
  res <~ post Embeddings query ;;
  if negb (status_code res =? 200) then
    raise (RuntimeError "Query embedding failed")
  else
    query_embedding <~ lift (embedding_of res) ;;
    lift (query_vector <- np_array_float32 [query_embedding] ;;
          indices <- index_search index query_vector top_k ;;
          row <- list_getitem indices 0 ;;
          map_outcome (list_getitem texts) row).

(** [res.json()["choices"][0]["message"]["content"]] *)
Definition completion_content (res : response) : outcome pyval :=
  body <- json_loads (text res) ;;
  choices <- py_getitem body (KStr "choices") ;;
  choice <- py_getitem choices (KInt 0) ;;
  message <- py_getitem choice (KStr "message") ;;
  py_getitem message (KStr "content").

Definition analyze_document_with_ai (context : string) : M pyval :=
  res <~ post ChatCompletions context ;;
  if negb (status_code res =? 200) then
    ret (PDict [("error", PStr "AI analysis unavailable");
                ("status_code", PInt (status_code res));
                ("response", PStr (text res))])
  else
    ret (try_except (completion_content res)
                    (PDict [("error", PStr "AI analysis failed")])).

(** The answers of the embedding provider when it is asked for each chunk
    in turn. *)
Fixpoint answers (chunks : list string) (w : world) : list (outcome response) :=
  match chunks with
  | [] => []
  | chunk :: rest =>
      let (r, w') := post Embeddings chunk w in
      r :: answers rest w'
  end.

(** An answer that lets the loop of [embed_chunks] go on: status 200 and a
    body that holds an embedding where the code reads it. *)
Definition usable (a : outcome response) : Prop :=
  exists res e,
    a = Returned res /\ status_code res = 200 /\ embedding_of res = Returned e.

(** The entry holds the embedding read from the answer. *)
Definition embedded_from (entry : embedded) (a : outcome response) : Prop :=
  exists res,
    a = Returned res /\ status_code res = 200 /\
    embedding_of res = Returned (embedding entry).

(** [validate_document] once the chunks are there. *)
Definition validate_chunks (chunks : list string) : M pyval :=
  embedded_chunks <~ embed_chunks chunks ;;
  store <~ lift (build_vector_store embedded_chunks) ;;
  relevant_chunks <~ semantic_search (fst store) (snd store)
    "Australian Business Number ABN document date compliance" 3 ;;
  let context := assemble_context relevant_chunks in
  ai_raw <~ analyze_document_with_ai context ;;
  lift (ai_parsed <- parse_ai_json json_loads ai_raw ;;
        aggregate ai_parsed).

(** [validate_document] from the extracted text on; [None] when the
    chunking loop is still running after [fuel] iterations. *)
Definition validate_document (fuel : nat) (text : string) : option (M pyval) :=
  if negb (truthy (PStr (strip text))) then
    Some (raise (HTTPException 400 "No text extracted from document"))
  else
    match chunk_text fuel text default_chunk_size default_overlap with
    | Some chunks => Some (validate_chunks chunks)
    | None => None
    end.

End Pipeline.

(** ** Concrete runtimes for the scenarios *)

(** A scripted provider: the world is the list of answers still to come, and
    a call beyond the script fails at the transport level. *)
Definition scripted_post (e : endpoint) (payload : string)
    (w : list (outcome response)) : outcome response * list (outcome response) :=
  match w with
  | [] => (Raised RequestException, [])
  | r :: w' => (r, w')
  end.

#[export] Instance scripted : Runtime (list (outcome response)) :=
  {| json_loads := Json.loads; post := scripted_post |}.

(** Integer coordinates, on which float arithmetic is exact. *)
Definition int_of (v : pyval) : outcome Z :=
  match v with
  | PInt z => Returned z
  | _ => Raised ValueError
  end.

Definition int_row (v : pyval) : outcome (list Z) :=
  match v with
  | PList xs => map_outcome int_of xs
  | _ => Raised ValueError
  end.

Definition int_matrix (rows : list pyval) : outcome (list (list Z)) :=
  m <- map_outcome int_row rows ;;
  match m with
  | [] => Returned m
  | r :: _ =>
      if forallb (fun r' => (List.length r' =? List.length r)%nat) m
      then Returned m else Raised ValueError
  end.

#[export] Instance exact : Float32 :=
  {| scalar := Z; fzero := 0; fadd := Z.add; fsub := Z.sub; fmul := Z.mul;
     fleb := Z.leb; np_array_float32 := int_matrix |}.

(** The body of an embedding response with the given coordinate list. *)
Definition embedding_body (coordinates : string) : string :=
  "{" ++ Json.quoted "data" ++ ":[{" ++ Json.quoted "embedding" ++ ":"
      ++ coordinates ++ "}]}".

(** The body of a completion response with the given content. *)
Definition completion_body (content : string) : string :=
  "{" ++ Json.quoted "choices" ++ ":[{" ++ Json.quoted "message" ++ ":{"
      ++ Json.quoted "content" ++ ":" ++ Json.quoted content ++ "}}]}".

Definition ok (body : string) : outcome response :=
  Returned {| status_code := 200; text := body |}.

Definition hello_text : string := str_mul "Hello world. " 100.

(** The two windows of [hello_text] under the default parameters, and an
    index that holds one vector for each. *)
Definition hello_chunks : list string :=
  [str_slice hello_text 0 800; str_slice hello_text 700 1500].

Definition hello_index : index := {| d := 2; xb := [[1; 0]; [0; 1]] |}.
(** ** Text extraction and the upload endpoint *)

(** [str.lower] on code points below 256: the letters A to Z and the
    accented capitals 192 to 222, without the multiplication sign 215, move
    up by 32. *)
Definition lower_char (c : ascii) : ascii :=
  let n := nat_of_ascii c in
  if ((65 <=? n)%nat && (n <=? 90)%nat)
     || ((192 <=? n)%nat && (n <=? 222)%nat && negb (n =? 215)%nat)
  then ascii_of_nat (n + 32) else c.

Fixpoint str_lower (s : string) : string :=
  match s with
  | EmptyString => EmptyString
  | String c s' => String (lower_char c) (str_lower s')
  end.

(** [s.endswith(suffix)] *)
Definition str_endswith (s suffix : string) : bool :=
  let n := String.length s in
  let m := String.length suffix in
  (m <=? n)%nat && String.eqb (substring (n - m) m s) suffix.

(** [pat in s] *)
Fixpoint str_contains (pat s : string) : bool :=
  prefix pat s ||
  match s with
  | EmptyString => false
  | String _ s' => str_contains pat s'
  end.

(** An uploaded file: the name the client sent, if any, and the content. *)
Record upload (content : Type) : Type :=
  { filename : option string; file : content }.
Arguments filename {content} u.
Arguments file {content} u.

(** The two document readers: the text of every page of a PDF ([None] where
    a page has none), and the text of every paragraph of a Word document. *)
Class Readers (content : Type) : Type := {
  pdf_pages : content -> outcome (list (option string));
  docx_paragraphs : content -> outcome (list string)
}.

(** [page.extract_text() or ""] *)
Definition page_text (t : option string) : string :=
  match t with
  | Some s => if truthy (PStr s) then s else ""
  | None => ""
  end.

Section Upload.

Context {content : Type} {RD : Readers content}.

Definition extract_text (f : upload content) : outcome string :=
  match filename f with
  | None => Raised AttributeError
  | Some name =>
      if str_endswith (str_lower name) ".pdf" then
        pages <- pdf_pages (file f) ;;
        Returned (str_join newline (map page_text pages))
      else if str_endswith (str_lower name) ".docx" then
        paragraphs <- docx_paragraphs (file f) ;;
        Returned (str_join newline paragraphs)
      else Raised (HTTPException 400 "Unsupported file format")
  end.

Context {world : Type} {RT : Runtime world} {F32 : Float32}.

(** [validate_document(file)], the endpoint as a whole. *)
Definition validate_upload (fuel : nat) (f : upload content)
    : option (M pyval) :=
  match extract_text f with
  | Returned text => validate_document fuel text
  | Raised e => Some (raise e)
  end.

End Upload.

(** ** Reading the chunks back *)

(** [c[overlap:]] *)
Definition drop_overlap (overlap : Z) (c : string) : string :=
  str_slice c overlap (len c).

(** The first chunk followed by every later chunk without its first
    [overlap] characters. *)
Definition reassemble (overlap : Z) (chunks : list string) : string :=
  match chunks with
  | [] => EmptyString
  | c :: rest => c ++ String.concat "" (map (drop_overlap overlap) rest)
  end.

Section Calls.

Context {world : Type} {RT : Runtime world}.

(** The world after one embedding request for each of the texts, in order. *)
Fixpoint after_requests (texts : list string) (w : world) : world :=
  match texts with
  | [] => w
  | t :: rest => after_requests rest (snd (post Embeddings t w))
  end.

End Calls.

(** The report for a mapping that has none of the keys the code reads. *)
Definition default_report : pyval :=
  PDict [("document_type", PStr "Unknown");
         ("status", PStr "CLEAR");
         ("issues", PDict [("missing_fields", PList []);
                           ("invalid_fields", PList []);
                           ("risks", PList [])]);
         ("message", PStr "Document analysis completed.")].

(** A document given by the texts its reader finds in it, page by page or
    paragraph by paragraph. *)
#[export] Instance stored_texts : Readers (list (option string)) :=
  {| pdf_pages := fun c => Returned c;
     docx_paragraphs := fun c => Returned (map page_text c) |}.

(** * Properties *)

(** ** Strings *)

Lemma length_substring (s : string) :
  forall n m, String.length (substring n m s) = Nat.min m (String.length s - n).
Proof.
  induction s as [|c s IH]; intros [|n] [|m]; simpl; try reflexivity.
  - rewrite IH. simpl. rewrite Nat.sub_0_r. reflexivity.
  - rewrite IH. reflexivity.
  - rewrite IH. reflexivity.
Qed.

Lemma substring_all (s : string) :
  forall m, (String.length s <= m)%nat -> substring 0 m s = s.
Proof.
  induction s as [|c s IH]; intros [|m] H; simpl in *; try reflexivity; try lia.
  rewrite IH by lia. reflexivity.
Qed.

Lemma adjust_index_range (n i : Z) : 0 <= n -> 0 <= adjust_index n i <= n.
Proof. unfold adjust_index. destruct (Z.ltb_spec i 0); lia. Qed.

Lemma len_str_slice_le (s : string) (start stop : Z) :
  0 <= start <= stop -> len (str_slice s start stop) <= stop - start.
Proof.
  intros Hs. unfold str_slice. unfold len at 1. rewrite length_substring.
  unfold adjust_index.
  assert (0 <= len s) by (unfold len; lia).
  destruct (Z.ltb_spec start 0); [lia|].
  destruct (Z.ltb_spec stop 0); [lia|].
  unfold len in *. lia.
Qed.

Lemma len_str_slice_inside (s : string) (start stop : Z) :
  0 <= start <= stop -> stop <= len s -> len (str_slice s start stop) = stop - start.
Proof.
  intros Hs Hl. unfold str_slice. unfold len at 1. rewrite length_substring.
  unfold adjust_index.
  destruct (Z.ltb_spec start 0); [lia|].
  destruct (Z.ltb_spec stop 0); [lia|].
  unfold len in *. lia.
Qed.

(** ** Ceiling division *)

Lemma ceil_div_nonpos (a b : Z) : 0 < b -> a <= 0 -> ceil_div a b <= 0.
Proof.
  intros Hb Ha. unfold ceil_div.
  assert (0 <= (- a) / b) by (apply Z.div_pos; lia). lia.
Qed.

Lemma ceil_div_pos (a b : Z) : 0 < b -> 0 < a -> 0 < ceil_div a b.
Proof.
  intros Hb Ha. unfold ceil_div.
  assert ((- a) / b < 0) by (apply Z.div_lt_upper_bound; lia). lia.
Qed.

Lemma ceil_div_step (a b : Z) : 0 < b -> ceil_div (a - b) b = ceil_div a b - 1.
Proof.
  intros Hb. unfold ceil_div.
  replace (- (a - b)) with (- a + 1 * b) by lia.
  rewrite Z.div_add by lia. lia.
Qed.

(** ** The chunking loop *)

Lemma windows_S (text : string) (chunk_size step start : Z) (n : nat) :
  windows text chunk_size step start (S n) =
  str_slice text start (start + chunk_size)
    :: windows text chunk_size step (start + step) n.
Proof.
  unfold windows. rewrite <- cons_seq, <- seq_shift. simpl. rewrite map_map.
  f_equal.
  - f_equal; lia.
  - apply map_ext. intros k. f_equal; lia.
Qed.

Lemma length_windows (text : string) (chunk_size step start : Z) (n : nat) :
  List.length (windows text chunk_size step start n) = n.
Proof. unfold windows. rewrite length_map, length_seq. reflexivity. Qed.

Lemma windows_bounded (text : string) (chunk_size step : Z) (n : nat) :
  0 <= chunk_size ->
  0 <= step ->
  forall start, 0 <= start ->
  Forall (fun c => len c <= chunk_size) (windows text chunk_size step start n).
Proof.
  intros Hsize Hstep. induction n as [|n IH]; intros start Hstart.
  - constructor.
  - rewrite windows_S. constructor.
    + pose proof (len_str_slice_le text start (start + chunk_size)). lia.
    + apply IH. lia.
Qed.

(** With a positive step the loop leaves after as many iterations as there
    are window starts below [len text], and has appended those windows. *)
Lemma chunk_loop_windows (text : string) (chunk_size overlap : Z) :
  0 < chunk_size - overlap ->
  forall (n : nat) (start : Z) (chunks : list string) (fuel : nat),
    n = Z.to_nat (ceil_div (len text - start) (chunk_size - overlap)) ->
    (n < fuel)%nat ->
    chunk_loop fuel text chunk_size overlap start chunks =
    Some (chunks ++ windows text chunk_size (chunk_size - overlap) start n)%list.
Proof.
  intros Hstep. induction n as [|n IH]; intros start chunks fuel Hn Hfuel.
  - destruct fuel as [|fuel]; [lia|]. simpl.
    destruct (start <? len text) eqn:E.
    + apply Z.ltb_lt in E.
      pose proof (ceil_div_pos (len text - start) _ Hstep). lia.
    + unfold windows. simpl. rewrite app_nil_r. reflexivity.
  - destruct fuel as [|fuel]; [lia|]. simpl.
    destruct (start <? len text) eqn:E.
    + rewrite (IH (start + chunk_size - overlap)).
      * rewrite windows_S, <- app_assoc. simpl.
        replace (start + (chunk_size - overlap)) with (start + chunk_size - overlap) by lia.
        reflexivity.
      * replace (len text - (start + chunk_size - overlap))
          with (len text - start - (chunk_size - overlap)) by lia.
        rewrite ceil_div_step by assumption. lia.
      * lia.
    + apply Z.ltb_ge in E.
      pose proof (ceil_div_nonpos (len text - start) _ Hstep). lia.
Qed.

(** More fuel does not change a result. *)
Lemma chunk_loop_more_fuel (text : string) (chunk_size overlap : Z) :
  forall (fuel extra : nat) (start : Z) (chunks result : list string),
    chunk_loop fuel text chunk_size overlap start chunks = Some result ->
    chunk_loop (fuel + extra) text chunk_size overlap start chunks = Some result.
Proof.
  induction fuel as [|fuel IH]; intros extra start chunks result H.
  - discriminate.
  - simpl in *. destruct (start <? len text); [apply IH|]; assumption.
Qed.

(** [chunk_text] returns at most one list. *)
Lemma chunk_text_returns_unique (text : string) (chunk_size overlap : Z)
    (r1 r2 : list string) :
  chunk_text_returns text chunk_size overlap r1 ->
  chunk_text_returns text chunk_size overlap r2 ->
  r1 = r2.
Proof.
  intros [f1 H1] [f2 H2]. unfold chunk_text in *.
  apply chunk_loop_more_fuel with (extra := f2) in H1.
  apply chunk_loop_more_fuel with (extra := f1) in H2.
  rewrite Nat.add_comm in H2. congruence.
Qed.

(** Where the step is not positive and the start is at most 0, a non-empty
    text keeps the loop running whatever the fuel. *)
Lemma chunk_loop_stuck (text : string) (chunk_size overlap : Z) :
  chunk_size <= overlap ->
  0 < len text ->
  forall (fuel : nat) (start : Z) (chunks : list string),
    start <= 0 ->
    chunk_loop fuel text chunk_size overlap start chunks = None.
Proof.
  intros Hov Hlen. induction fuel as [|fuel IH]; intros start chunks Hstart.
  - reflexivity.
  - simpl. destruct (start <? len text) eqn:E.
    + apply IH. lia.
    + apply Z.ltb_ge in E. lia.
Qed.

(** C4 (amended): for every non-empty text and every valid pair
    ([0 < chunk_size], [0 <= overlap < chunk_size]) chunking terminates,
    returns exactly [ceil (len text / (chunk_size - overlap))] chunks, one
    per window start below [len text], and every chunk has length at most
    [chunk_size]. *)
Theorem chunk_text_count (text : string) (chunk_size overlap : Z) :
  0 < len text ->
  0 < chunk_size ->
  0 <= overlap < chunk_size ->
  exists chunks,
    chunk_text_returns text chunk_size overlap chunks /\
    Z.of_nat (List.length chunks) = chunk_count text chunk_size overlap /\
    Forall (fun c => len c <= chunk_size) chunks.
Proof.
  intros Hlen Hsize Hov.
  set (step := chunk_size - overlap).
  set (n := Z.to_nat (ceil_div (len text - 0) step)).
  exists (windows text chunk_size step 0 n). split; [|split].
  - exists (S n). unfold chunk_text.
    rewrite (chunk_loop_windows text chunk_size overlap) with (n := n);
      [reflexivity | fold step; lia | reflexivity | lia].
  - rewrite length_windows. unfold n, chunk_count. fold step.
    rewrite Z.sub_0_r.
    pose proof (ceil_div_pos (len text) step). lia.
  - apply windows_bounded; unfold step; lia.
Qed.

Lemma chunk_text_count_witness :
  0 < len "abcdefgh" /\ 0 < 4 /\ 0 <= 3 < 4 /\
  exists chunks,
    chunk_text_returns "abcdefgh" 4 3 chunks /\
    Z.of_nat (List.length chunks) = chunk_count "abcdefgh" 4 3 /\
    Forall (fun c => len c <= 4) chunks.
Proof.
  assert (H1 : 0 < len "abcdefgh") by reflexivity.
  assert (H2 : 0 < 4) by reflexivity.
  assert (H3 : 0 <= 3 < 4) by (split; [discriminate | reflexivity]).
  repeat split; try assumption; try discriminate.
  exact (chunk_text_count "abcdefgh" 4 3 H1 H2 H3).
Defined.

(** C4 as stated fails: with [chunk_size = 4] and [overlap = 3] the eight
    characters of the text give eight chunks, three more than
    [ceil ((len text - overlap) / (chunk_size - overlap)) = 5]. *)
Lemma chunk_text_count_spec_formula_fails :
  ~ (forall chunks,
       chunk_text_returns "abcdefgh" 4 3 chunks ->
       Z.abs (Z.of_nat (List.length chunks) - spec_chunk_count "abcdefgh" 4 3) <= 1).
Proof.
  intros H.
  assert (R : chunk_text_returns "abcdefgh" 4 3
                ["abcd"; "bcde"; "cdef"; "defg"; "efgh"; "fgh"; "gh"; "h"])
    by (exists 9%nat; reflexivity).
  specialize (H _ R). vm_compute in H. apply H. reflexivity.
Qed.

(** C2 (amended): with [overlap >= chunk_size] the loop has no check to stop
    it and raises nothing; it returns only for the empty text, with no
    chunk, and for a non-empty text it is still running after any number of
    iterations. *)
Theorem chunk_text_without_progress (text : string) (chunk_size overlap : Z) :
  chunk_size <= overlap ->
  (forall chunks,
     chunk_text_returns text chunk_size overlap chunks <->
     text = "" /\ chunks = []) /\
  (text <> "" ->
   forall fuel, chunk_text fuel text chunk_size overlap = None).
Proof.
  intros Hov.
  assert (Hstuck : text <> "" ->
            forall fuel, chunk_text fuel text chunk_size overlap = None).
  { intros Hne fuel. apply chunk_loop_stuck; try lia.
    destruct text; [congruence | unfold len; simpl; lia]. }
  split; [|exact Hstuck].
  intros chunks. split.
  - intros [fuel H]. destruct text as [|c text].
    + destruct fuel as [|fuel]; [discriminate|].
      simpl in H. injection H as <-. split; reflexivity.
    + rewrite Hstuck in H; [discriminate | discriminate].
  - intros [-> ->]. exists 1%nat. reflexivity.
Qed.

Lemma chunk_text_without_progress_witness :
  4 <= 4 /\
  (forall chunks, chunk_text_returns "a" 4 4 chunks <-> "a" = "" /\ chunks = []) /\
  ("a" <> "" -> forall fuel, chunk_text fuel "a" 4 4 = None).
Proof.
  assert (H : 4 <= 4) by discriminate.
  split; [exact H | exact (chunk_text_without_progress "a" 4 4 H)].
Defined.

(** C2 as stated fails: with [chunk_size = overlap = 4] the empty text is
    chunked without any failure, and on the text [a] the loop never ends. *)
Lemma chunk_text_no_fail_fast :
  chunk_text_returns "" 4 4 [] /\
  ~ (exists fuel, chunk_text fuel "a" 4 4 <> None).
Proof.
  split.
  - exists 1%nat. reflexivity.
  - intros [fuel H]. apply H.
    apply chunk_loop_stuck; (reflexivity || discriminate).
Qed.

(** ** Joining and truncating *)

Lemma str_length_append (s1 s2 : string) :
  String.length (s1 ++ s2) = (String.length s1 + String.length s2)%nat.
Proof. induction s1 as [|c s1 IH]; simpl; [|rewrite IH]; reflexivity. Qed.

Lemma len_str_join_le (sep : string) (m : Z) (parts : list string) :
  0 <= m ->
  Forall (fun c => len c <= m) parts ->
  len (str_join sep parts) <= Z.of_nat (List.length parts) * (m + len sep).
Proof.
  intros Hm H. induction H as [|x parts Hx Hparts IH].
  - simpl. unfold len. simpl. lia.
  - assert (Hsep : 0 <= len sep) by (unfold len; lia).
    unfold str_join in *. destruct parts as [|y parts].
    + change (String.concat sep [x]) with x.
      change (Z.of_nat (List.length [x])) with 1. lia.
    + change (String.concat sep (x :: y :: parts))
        with (x ++ sep ++ String.concat sep (y :: parts)).
      change (List.length (x :: y :: parts)) with (S (List.length (y :: parts))).
      rewrite Nat2Z.inj_succ.
      unfold len in *. rewrite !str_length_append, !Nat2Z.inj_add.
      nia.
Qed.

Lemma str_slice_whole (s : string) (stop : Z) :
  len s <= stop -> str_slice s 0 stop = s.
Proof.
  intros H. unfold str_slice, adjust_index.
  assert (0 <= len s) by (unfold len; lia).
  change (0 <? 0) with false. cbv iota.
  destruct (Z.ltb_spec stop 0); [lia|].
  rewrite (Z.min_l 0 (len s)), (Z.min_r stop (len s)), Z.sub_0_r by lia.
  apply substring_all. unfold len. lia.
Qed.

(** Up to three texts of at most 800 characters fit the context whole. *)
Lemma assemble_context_whole (relevant_chunks : list string) :
  (List.length relevant_chunks <= 3)%nat ->
  Forall (fun c => len c <= 800) relevant_chunks ->
  assemble_context relevant_chunks = str_join newline relevant_chunks.
Proof.
  intros Hn H. unfold assemble_context. apply str_slice_whole.
  pose proof (len_str_join_le newline 800 relevant_chunks ltac:(lia) H) as Hb.
  change (len newline) with 1 in Hb. unfold MAX_CONTEXT_CHARS. nia.
Qed.

(** ** Retrieval *)

Lemma map_outcome_length {A B : Type} (f : A -> outcome B) (l : list A) :
  forall r, map_outcome f l = Returned r -> List.length r = List.length l.
Proof.
  induction l as [|x l IH]; intros r H; simpl in H.
  - injection H as <-. reflexivity.
  - destruct (f x) as [y|e]; [|discriminate]. simpl in H.
    destruct (map_outcome f l) as [ys|e]; [|discriminate]. simpl in H.
    injection H as <-. simpl. f_equal. apply IH. reflexivity.
Qed.

Lemma map_outcome_Forall {A B : Type} (f : A -> outcome B) (P : B -> Prop)
    (l : list A) :
  (forall x y, In x l -> f x = Returned y -> P y) ->
  forall r, map_outcome f l = Returned r -> Forall P r.
Proof.
  induction l as [|x l IH]; intros Hf r H; simpl in H.
  - injection H as <-. constructor.
  - destruct (f x) as [y|e] eqn:Ey; [|discriminate]. simpl in H.
    destruct (map_outcome f l) as [ys|e]; [|discriminate]. simpl in H.
    injection H as <-. constructor.
    + apply (Hf x y); [left; reflexivity | assumption].
    + apply IH; [|reflexivity]. intros x' y' Hin. apply Hf. right. assumption.
Qed.

Lemma list_getitem_In {A : Type} (l : list A) (i : Z) (x : A) :
  list_getitem l i = Returned x -> In x l.
Proof.
  unfold list_getitem. intros H.
  destruct ((0 <=? _) && (_ <? _)); [|discriminate].
  destruct (nth_error l _) as [y|] eqn:E; [|discriminate].
  injection H as <-. apply nth_error_In in E. assumption.
Qed.

Lemma length_pad_labels (k : nat) (labels : list Z) :
  List.length (pad_labels k labels) = k.
Proof.
  unfold pad_labels. rewrite length_app, repeat_length.
  pose proof (firstn_le_length k labels) as H. lia.
Qed.

Section Retrieval.

Context {world : Type} {RT : Runtime world} {F32 : Float32}.

(** Whatever the index holds, a search that returns has produced one text
    of [texts] per requested neighbour: [top_k] of them. *)
Lemma semantic_search_returns (idx : index) (texts : list string)
    (query : string) (top_k : Z) (w w' : world) (r : list string) :
  semantic_search idx texts query top_k w = (Returned r, w') ->
  0 < top_k /\
  Z.of_nat (List.length r) = top_k /\
  Forall (fun t => In t texts) r.
Proof.
  unfold semantic_search, bindM, raise, lift. intros H.
  destruct (post Embeddings query w) as [[res|e] w1]; [|discriminate].
  destruct (negb (status_code res =? 200)); [discriminate|].
  destruct (embedding_of res) as [qe|e]; [|discriminate].
  destruct (np_array_float32 [qe]) as [qv|e]; [|discriminate].
  simpl in H. unfold index_search in H.
  destruct (forallb _ qv); [|discriminate].
  destruct (Z.ltb_spec 0 top_k) as [Hk|Hk]; [|discriminate].
  simpl in H.
  destruct (list_getitem _ 0) as [row|e] eqn:Erow; [|discriminate].
  simpl in H.
  destruct (map_outcome (list_getitem texts) row) as [r'|e] eqn:Er;
    [|discriminate].
  injection H as <- _.
  apply list_getitem_In, in_map_iff in Erow. destruct Erow as [q [<- _]].
  split; [assumption|]. split.
  - rewrite (map_outcome_length _ _ _ Er), length_pad_labels. lia.
  - apply (map_outcome_Forall _ _ _ (fun i t _ => list_getitem_In texts i t) _ Er).
Qed.

(** The labels of a search are positions of stored vectors. *)
Lemma In_insert_by (p x : scalar * Z) (l : list (scalar * Z)) :
  In x (insert_by p l) -> x = p \/ In x l.
Proof.
  induction l as [|q l IH]; simpl.
  - intros [<-|[]]. left. reflexivity.
  - destruct (fleb (fst p) (fst q)); simpl.
    + intros [<-|H]; [left; reflexivity | right; assumption].
    + intros [<-|H]; [right; left; reflexivity|].
      destruct (IH H) as [->|H']; [left; reflexivity | right; right; assumption].
Qed.

Lemma In_sorted (x : scalar * Z) (l : list (scalar * Z)) :
  In x (fold_right insert_by [] l) -> In x l.
Proof.
  induction l as [|p l IH]; simpl; [tauto|].
  intros H. apply In_insert_by in H. destruct H as [->|H]; [left | right; apply IH];
    trivial.
Qed.

Lemma nearest_in_range (idx : index) (q : list scalar) :
  Forall (fun i => 0 <= i < Z.of_nat (List.length (xb idx))) (nearest idx q).
Proof.
  unfold nearest. apply Forall_forall. intros i Hi.
  apply in_map_iff in Hi. destruct Hi as ([dist j] & <- & Hin).
  apply In_sorted, in_combine_r, in_map_iff in Hin.
  destruct Hin as (k & <- & Hk). apply in_seq in Hk. simpl. lia.
Qed.

Lemma pad_labels_in_range (k : nat) (n : Z) (labels : list Z) :
  Forall (fun i => 0 <= i < n) labels ->
  Forall (fun i => i = -1 \/ 0 <= i < n) (pad_labels k labels).
Proof.
  intros H. unfold pad_labels. apply Forall_app. split.
  - rewrite <- (firstn_skipn k labels) in H. apply Forall_app in H.
    eapply Forall_impl; [|exact (proj1 H)]. cbv beta. intros i Hi. right. exact Hi.
  - apply Forall_forall. intros i Hi. left. eapply repeat_spec; eassumption.
Qed.

(** On a list that is not empty, the filler label and every position of
    the list are valid indices. *)
Lemma list_getitem_defined {A : Type} (l : list A) (i : Z) :
  l <> [] ->
  i = -1 \/ 0 <= i < Z.of_nat (List.length l) ->
  exists x, list_getitem l i = Returned x.
Proof.
  intros Hne Hi. unfold list_getitem.
  assert (Hlen : 0 < Z.of_nat (List.length l))
    by (destruct l; [congruence | simpl; lia]).
  set (j := if i <? 0 then i + Z.of_nat (List.length l) else i).
  assert (Hj : 0 <= j < Z.of_nat (List.length l))
    by (unfold j; destruct (Z.ltb_spec i 0); lia).
  destruct (Z.leb_spec 0 j); [|lia]. destruct (Z.ltb_spec j (Z.of_nat (List.length l))); [|lia].
  simpl. destruct (nth_error l (Z.to_nat j)) as [x|] eqn:E; [eexists; reflexivity|].
  apply nth_error_None in E. lia.
Qed.

Lemma map_outcome_defined {A B : Type} (f : A -> outcome B) (l : list A) :
  Forall (fun x => exists y, f x = Returned y) l ->
  exists r, map_outcome f l = Returned r.
Proof.
  induction 1 as [|x l [y Hy] _ [r Hr]]; simpl.
  - eexists. reflexivity.
  - rewrite Hy, Hr. simpl. eexists. reflexivity.
Qed.

(** Over an index that holds one vector per text, a search with a query of
    the right dimension returns, and returns [top_k] texts, however few
    vectors the index holds. *)
Lemma semantic_search_top_k (idx : index) (texts : list string)
    (query : string) (top_k : Z) (w w' : world) (res : response)
    (query_embedding : pyval) (query_vector : list scalar) :
  post Embeddings query w = (Returned res, w') ->
  status_code res = 200 ->
  embedding_of res = Returned query_embedding ->
  np_array_float32 [query_embedding] = Returned [query_vector] ->
  Z.of_nat (List.length query_vector) = d idx ->
  List.length (xb idx) = List.length texts ->
  texts <> [] ->
  0 < top_k ->
  exists r,
    semantic_search idx texts query top_k w = (Returned r, w') /\
    Z.of_nat (List.length r) = top_k.
Proof.
  intros Hpost Hs He Hnp Hd Hn Hne Hk.
  destruct (map_outcome_defined (list_getitem texts)
              (pad_labels (Z.to_nat top_k) (nearest idx query_vector)))
    as [r Hr].
  { eapply Forall_impl; [|apply pad_labels_in_range, nearest_in_range].
    cbv beta. intros i Hi. apply list_getitem_defined; [assumption|].
    rewrite <- Hn. assumption. }
  exists r.
  assert (Hrun : semantic_search idx texts query top_k w = (Returned r, w')).
  { unfold semantic_search, bindM, raise, lift. rewrite Hpost, Hs. simpl.
    rewrite He, Hnp. simpl. unfold index_search. simpl.
    rewrite Hd, Z.eqb_refl. simpl.
    destruct (Z.ltb_spec 0 top_k); [|lia]. simpl.
    rewrite Hr. reflexivity. }
  split; [assumption|].
  apply semantic_search_returns in Hrun. tauto.
Qed.

End Retrieval.

(** C1 at a failing input: an index built from two chunks, searched with
    [top_k = 3], answers with three texts; the third label is the filler -1,
    which as a list index names the last chunk again. *)
Theorem semantic_search_exceeds_index :
  exists idx texts,
    build_vector_store
      [ {| emb_text := "alpha"; embedding := PList [PInt 1; PInt 0] |};
        {| emb_text := "beta"; embedding := PList [PInt 0; PInt 1] |} ]
    = Returned (idx, texts) /\
    List.length (xb idx) = 2%nat /\
    texts = ["alpha"; "beta"] /\
    index_search idx [[1; 0]] 3 = Returned [[0; 1; -1]] /\
    semantic_search idx texts "query" 3 [ok (embedding_body "[1,0]")]
    = (Returned ["alpha"; "beta"; "beta"], []).
Proof.
  eexists. eexists. split; [reflexivity|].
  repeat split.
Qed.

(** ** The end-to-end scenario *)

(** C5 (amended): the text of 1300 characters, chunked with size 800 and
    overlap 100, gives exactly two chunks, of lengths 800 and 600; and the
    context assembled from the texts that retrieval with [top_k = 3] returns
    over these chunks, cut to 2500 characters, is the whole concatenation. *)
Theorem hello_world_scenario {world : Type} {RT : Runtime world} {F32 : Float32}
    (chunks : list string) (idx : index) (query : string) (w w' : world)
    (relevant_chunks : list string) :
  chunk_text_returns hello_text default_chunk_size default_overlap chunks ->
  semantic_search idx chunks query 3 w = (Returned relevant_chunks, w') ->
  len hello_text = 1300 /\
  map len chunks = [800; 600] /\
  assemble_context relevant_chunks = str_join newline relevant_chunks.
Proof.
  intros Hchunks Hsearch.
  assert (Hc : chunks = hello_chunks).
  { apply (chunk_text_returns_unique _ _ _ _ _ Hchunks).
    exists 3%nat. vm_compute. reflexivity. }
  subst chunks. split; [reflexivity|]. split; [vm_compute; reflexivity|].
  apply semantic_search_returns in Hsearch.
  destruct Hsearch as (_ & Hlen & Hin).
  apply assemble_context_whole; [lia|].
  eapply Forall_impl; [|exact Hin]. cbv beta.
  intros t [<-|[<-|[]]]; vm_compute; discriminate.
Qed.

Lemma hello_world_scenario_witness :
  chunk_text_returns hello_text default_chunk_size default_overlap hello_chunks /\
  semantic_search hello_index hello_chunks "query" 3 [ok (embedding_body "[0,1]")]
  = (Returned [str_slice hello_text 700 1500; str_slice hello_text 0 800;
               str_slice hello_text 700 1500], []) /\
  len hello_text = 1300 /\
  map len hello_chunks = [800; 600] /\
  assemble_context [str_slice hello_text 700 1500; str_slice hello_text 0 800;
                    str_slice hello_text 700 1500]
  = str_join newline [str_slice hello_text 700 1500; str_slice hello_text 0 800;
                      str_slice hello_text 700 1500].
Proof.
  assert (H1 : chunk_text_returns hello_text default_chunk_size default_overlap
                 hello_chunks)
    by (exists 3%nat; vm_compute; reflexivity).
  assert (H2 : semantic_search hello_index hello_chunks "query" 3
                 [ok (embedding_body "[0,1]")]
               = (Returned [str_slice hello_text 700 1500;
                            str_slice hello_text 0 800;
                            str_slice hello_text 700 1500], []))
    by (vm_compute; reflexivity).
  split; [exact H1|]. split; [exact H2|].
  exact (hello_world_scenario _ _ _ _ _ _ H1 H2).
Defined.

(** C5 as stated fails: chunking the text does not give three chunks. *)
Lemma hello_world_not_three_chunks :
  ~ (exists chunks,
       chunk_text_returns hello_text 800 100 chunks /\
       List.length chunks = 3%nat).
Proof.
  intros (chunks & Hret & Hlen).
  assert (Hc : chunks = hello_chunks).
  { apply (chunk_text_returns_unique _ _ _ _ _ Hret).
    exists 3%nat. vm_compute. reflexivity. }
  subst chunks. discriminate Hlen.
Qed.

(** ** The response parser *)

Section ParserProperties.

Variable loads : string -> outcome pyval.

(** A string whose cleaned text the decoder rejects comes back inside the
    fallback mapping, untouched. *)
Lemma parse_ai_json_fallback (s : string) :
  s <> "" ->
  loads (strip (re_sub_fences 0 s)) = Raised JSONDecodeError ->
  parse_ai_json loads (PStr s) = Returned (fallback_mapping (PStr s)).
Proof.
  intros Hne Hl. unfold parse_ai_json. simpl.
  destruct (String.eqb_spec s ""); [contradiction|]. simpl.
  rewrite Hl. reflexivity.
Qed.

(** On a string the parser raises only what the decoder raises beyond
    [JSONDecodeError]. *)
Lemma parse_ai_json_str_returns (s : string) :
  (forall t e, loads t = Raised e -> e = JSONDecodeError) ->
  exists v, parse_ai_json loads (PStr s) = Returned v.
Proof.
  intros Hl. unfold parse_ai_json.
  destruct (negb (truthy (PStr s))); [eexists; reflexivity|].
  destruct (loads _) as [v|e] eqn:E; [eexists; reflexivity|].
  rewrite (Hl _ _ E). eexists. reflexivity.
Qed.

(** Anything truthy that is not a string stops the parser at [re.sub]. *)
Lemma parse_ai_json_not_str (v : pyval) :
  truthy v = true ->
  (forall s, v <> PStr s) ->
  parse_ai_json loads v = Raised TypeError.
Proof.
  intros Ht Hs. unfold parse_ai_json. rewrite Ht. simpl.
  destruct v; try reflexivity. elim (Hs s). reflexivity.
Qed.

(** C9: every falsy input, the empty string among them, takes the first
    branch of the parser: the result is the mapping with the single key
    [error] and the text [Empty AI response]; it has no [raw_response] key
    and is not the fallback mapping of any input. *)
Theorem parse_ai_json_falsy (ai_text : pyval) :
  truthy ai_text = false ->
  parse_ai_json loads ai_text
  = Returned (PDict [("error", PStr "Empty AI response")]) /\
  parse_ai_json loads (PStr "")
  = Returned (PDict [("error", PStr "Empty AI response")]) /\
  dict_lookup [("error", PStr "Empty AI response")] "raw_response" = None /\
  forall raw,
    PDict [("error", PStr "Empty AI response")] <> fallback_mapping raw.
Proof.
  intros Hf. unfold parse_ai_json. rewrite Hf. simpl.
  repeat split. intros raw H. discriminate H.
Qed.

End ParserProperties.

Lemma parse_ai_json_falsy_witness :
  truthy (PDict []) = false /\
  parse_ai_json Json.loads (PDict [])
  = Returned (PDict [("error", PStr "Empty AI response")]) /\
  parse_ai_json Json.loads (PStr "")
  = Returned (PDict [("error", PStr "Empty AI response")]) /\
  dict_lookup [("error", PStr "Empty AI response")] "raw_response" = None /\
  forall raw,
    PDict [("error", PStr "Empty AI response")] <> fallback_mapping raw.
Proof.
  assert (H : truthy (PDict []) = false) by reflexivity.
  split; [exact H | exact (parse_ai_json_falsy Json.loads (PDict []) H)].
Defined.

(** C6 at a failing input: the text of a JSON array decodes, so the parser
    returns the list it denotes, which is not a mapping; the report code
    that follows calls [get] on it and raises. *)
Theorem parse_ai_json_returns_list :
  parse_ai_json Json.loads (PStr "[]") = Returned (PList []) /\
  is_mapping (PList []) = false /\
  (ai_parsed <- parse_ai_json Json.loads (PStr "[]") ;; aggregate ai_parsed)
  = Raised AttributeError.
Proof. repeat split. Qed.

(** C3 at a failing input: the completion provider answers 503; the client
    returns its error dictionary, the parser raises [TypeError] on it, and so
    does the request as a whole. *)
Theorem parse_ai_json_raises_on_error_value :
  analyze_document_with_ai "context"
    [Returned {| status_code := 503; text := "Service Unavailable" |}]
  = (Returned (analysis_unavailable
                 {| status_code := 503; text := "Service Unavailable" |}), []) /\
  parse_ai_json Json.loads
    (analysis_unavailable {| status_code := 503; text := "Service Unavailable" |})
  = Raised TypeError /\
  option_map
    (fun run => run [ok (embedding_body "[1,0]"); ok (embedding_body "[1,0]");
                     Returned {| status_code := 503;
                                 text := "Service Unavailable" |}])
    (validate_document 2 "Invoice 42")
  = Some (Raised TypeError, []).
Proof. repeat split. Qed.

(** ** The completion client *)

(** C10: once the provider has answered, [analyze_document_with_ai] returns
    a value and raises nothing.  On status 200 it is the content of the
    body where the body has the expected shape, and the dictionary with the
    single key [error] and the text [AI analysis failed] where reading the
    content raises; that dictionary has neither [status_code] nor
    [response] and differs from the error value of a non-success status. *)
Theorem analyze_document_with_ai_returns {world : Type} {RT : Runtime world}
    (context : string) (w w' : world) (res : response) :
  post ChatCompletions context w = (Returned res, w') ->
  exists v,
    analyze_document_with_ai context w = (Returned v, w') /\
    (status_code res <> 200 -> v = analysis_unavailable res) /\
    (status_code res = 200 ->
     (forall e, completion_content res = Raised e ->
                v = PDict [("error", PStr "AI analysis failed")]) /\
     (forall c, completion_content res = Returned c -> v = c)) /\
    dict_lookup [("error", PStr "AI analysis failed")] "status_code" = None /\
    dict_lookup [("error", PStr "AI analysis failed")] "response" = None /\
    PDict [("error", PStr "AI analysis failed")] <> analysis_unavailable res.
Proof.
  intros Hpost. unfold analyze_document_with_ai, bindM, ret. rewrite Hpost.
  destruct (Z.eqb_spec (status_code res) 200) as [E|E]; simpl.
  - eexists. split; [reflexivity|]. split; [contradiction|]. split.
    + intros _. split.
      * intros e He. rewrite He. reflexivity.
      * intros c Hc. rewrite Hc. reflexivity.
    + repeat split. discriminate.
  - eexists. split; [reflexivity|]. split; [reflexivity|]. split.
    + contradiction.
    + repeat split. discriminate.
Qed.

Lemma analyze_document_with_ai_returns_witness :
  post ChatCompletions "context" [ok "{}"]
  = (Returned {| status_code := 200; text := "{}" |}, []) /\
  completion_content {| status_code := 200; text := "{}" |} = Raised KeyError /\
  exists v,
    analyze_document_with_ai "context" [ok "{}"] = (Returned v, []) /\
    (200 <> 200 -> v = analysis_unavailable {| status_code := 200; text := "{}" |}) /\
    (200 = 200 ->
     (forall e, completion_content {| status_code := 200; text := "{}" |} = Raised e ->
                v = PDict [("error", PStr "AI analysis failed")]) /\
     (forall c, completion_content {| status_code := 200; text := "{}" |} = Returned c ->
                v = c)) /\
    dict_lookup [("error", PStr "AI analysis failed")] "status_code" = None /\
    dict_lookup [("error", PStr "AI analysis failed")] "response" = None /\
    PDict [("error", PStr "AI analysis failed")]
    <> analysis_unavailable {| status_code := 200; text := "{}" |}.
Proof.
  assert (H : post ChatCompletions "context" [ok "{}"]
              = (Returned {| status_code := 200; text := "{}" |}, []))
    by reflexivity.
  split; [exact H|]. split; [reflexivity|].
  exact (analyze_document_with_ai_returns "context" [ok "{}"] [] _ H).
Defined.

(** ** The report *)

Lemma truthy_list (l : list pyval) : truthy (PList l) = true <-> l <> [].
Proof. destruct l; simpl; split; congruence. Qed.

Lemma truthy_dict (d : list (string * pyval)) : truthy (PDict d) = true <-> d <> [].
Proof. destruct d; simpl; split; congruence. Qed.

Lemma truthy_str (s : string) : truthy (PStr s) = true <-> s <> "".
Proof.
  simpl. destruct (String.eqb_spec s ""); simpl; split; congruence.
Qed.

(** Writing one key of a dictionary leaves the other keys as they were. *)
Lemma dict_lookup_set_other (d : list (string * pyval)) (k k' : string)
    (v : pyval) :
  k <> k' -> dict_lookup (dict_set d k v) k' = dict_lookup d k'.
Proof.
  intros Hne. induction d as [|[k0 v0] d IH]; simpl.
  - destruct (String.eqb_spec k k'); [contradiction | reflexivity].
  - destruct (String.eqb_spec k0 k) as [->|Hk]; simpl.
    + destruct (String.eqb_spec k k'); [contradiction | reflexivity].
    + destruct (String.eqb_spec k0 k'); [reflexivity | exact IH].
Qed.

(** C7 (amended): for every parsed mapping the report carries
    [missing_fields] and [risks] as read from the mapping (empty list when
    absent) and the empty list as [invalid_fields]; the status is
    [NEEDS_ATTENTION] exactly when [missing_fields] or [risks] passes the
    truth test of the code (for a list: it has an element), and [CLEAR]
    otherwise; the key [invalid_fields] of the mapping is not read, so
    whatever it holds changes nothing in the report; [document_type] and
    [message] are read from the keys [document_type] and [summary] and
    default to [Unknown] and [Document analysis completed.]; the empty
    mapping gives [CLEAR], [Unknown] and three empty lists. *)
Theorem aggregate_report (parsed : list (string * pyval)) :
  exists status,
    aggregate (PDict parsed)
    = Returned
        (PDict [("document_type", get_or parsed "document_type" (PStr "Unknown"));
                ("status", PStr status);
                ("issues",
                 PDict [("missing_fields", get_or parsed "missing_fields" (PList []));
                        ("invalid_fields", PList []);
                        ("risks", get_or parsed "risks" (PList []))]);
                ("message",
                 get_or parsed "summary" (PStr "Document analysis completed."))]) /\
    (status = "NEEDS_ATTENTION" <->
     truthy (get_or parsed "missing_fields" (PList [])) = true \/
     truthy (get_or parsed "risks" (PList [])) = true) /\
    (status = "CLEAR" <->
     truthy (get_or parsed "missing_fields" (PList [])) = false /\
     truthy (get_or parsed "risks" (PList [])) = false) /\
    (forall missing risks,
       get_or parsed "missing_fields" (PList []) = PList missing ->
       get_or parsed "risks" (PList []) = PList risks ->
       (status = "NEEDS_ATTENTION" <-> missing <> [] \/ risks <> [])) /\
    (forall invalid,
       aggregate (PDict (dict_set parsed "invalid_fields" invalid))
       = aggregate (PDict parsed)) /\
    (dict_lookup parsed "document_type" = None ->
     get_or parsed "document_type" (PStr "Unknown") = PStr "Unknown") /\
    (dict_lookup parsed "summary" = None ->
     get_or parsed "summary" (PStr "Document analysis completed.")
     = PStr "Document analysis completed.") /\
    aggregate (PDict [])
    = Returned
        (PDict [("document_type", PStr "Unknown");
                ("status", PStr "CLEAR");
                ("issues", PDict [("missing_fields", PList []);
                                  ("invalid_fields", PList []);
                                  ("risks", PList [])]);
                ("message", PStr "Document analysis completed.")]).
Proof.
  set (missing := get_or parsed "missing_fields" (PList [])).
  set (risks := get_or parsed "risks" (PList [])).
  exists (if truthy missing || truthy (PList []) || truthy risks
          then "NEEDS_ATTENTION" else "CLEAR").
  change (truthy (PList [])) with false. rewrite orb_false_r.
  split; [|split; [|split; [|split; [|split; [|split; [|split]]]]]].
  - unfold aggregate, py_get, missing, risks, get_or.
    destruct (dict_lookup parsed "missing_fields") as [m|];
      destruct (dict_lookup parsed "risks") as [r|];
      destruct (dict_lookup parsed "document_type");
      destruct (dict_lookup parsed "summary"); cbn [bind];
      change (truthy (PList [])) with false; rewrite ?orb_false_r;
      reflexivity.
  - rewrite <- orb_true_iff.
    destruct (truthy missing || truthy risks); split; congruence.
  - rewrite <- orb_false_iff.
    destruct (truthy missing || truthy risks); split; congruence.
  - intros ms rs Hm Hr.
    rewrite <- (truthy_list ms), <- (truthy_list rs), <- Hm, <- Hr,
      <- orb_true_iff.
    destruct (truthy missing || truthy risks); split; congruence.
  - intros invalid. unfold aggregate, py_get.
    rewrite !dict_lookup_set_other by discriminate. reflexivity.
  - unfold get_or. intros ->. reflexivity.
  - unfold get_or. intros ->. reflexivity.
  - reflexivity.
Qed.

(** C7 as stated fails: a mapping whose [invalid_fields] is not empty, and
    whose [missing_fields] and [risks] are absent, gets the status
    [CLEAR], and its report shows no invalid field. *)
Lemma aggregate_ignores_invalid_fields :
  truthy (get_or [("invalid_fields", PList [PStr "ABN"])] "invalid_fields"
                 (PList [])) = true /\
  aggregate (PDict [("invalid_fields", PList [PStr "ABN"])])
  = Returned
      (PDict [("document_type", PStr "Unknown");
              ("status", PStr "CLEAR");
              ("issues", PDict [("missing_fields", PList []);
                                ("invalid_fields", PList []);
                                ("risks", PList [])]);
              ("message", PStr "Document analysis completed.")]).
Proof. split; reflexivity. Qed.

(** Truth values of floats in the report: a literal that rounds to zero
    counts as empty, the smallest positive double does not. *)
Example aggregate_float_values :
  Json.loads "1e-400" = Returned (PFloat "1e-400") /\
  truthy (PFloat "1e-400") = false /\
  truthy (PFloat "5e-324") = true /\
  (report <- aggregate (PDict [("missing_fields", PFloat "1e-400")]) ;;
   py_getitem report (KStr "status")) = Returned (PStr "CLEAR") /\
  (report <- aggregate (PDict [("missing_fields", PFloat "5e-324")]) ;;
   py_getitem report (KStr "status")) = Returned (PStr "NEEDS_ATTENTION").
Proof. repeat split; vm_compute; reflexivity. Qed.

(** ** The embedding batch *)

Section Embedding.

Context {world : Type} {RT : Runtime world}.

(** A returned list extends the accumulator by one entry per chunk, in
    order, each with the embedding of the answer to that chunk. *)
Lemma embed_loop_returned (chunks : list string) :
  forall (acc : list embedded) (w w' : world) (l : list embedded),
    embed_loop chunks acc w = (Returned l, w') ->
    exists new,
      l = (acc ++ new)%list /\
      map emb_text new = chunks /\
      Forall2 embedded_from new (answers chunks w).
Proof.
  induction chunks as [|chunk rest IH]; intros acc w w' l H; simpl in *.
  - unfold ret in H. injection H as <- _. exists []. rewrite app_nil_r.
    repeat split. constructor.
  - unfold bindM, raise, lift in H.
    destruct (post Embeddings chunk w) as [[res|e] w1]; [|discriminate].
    destruct (Z.eqb_spec (status_code res) 200) as [E|E]; [|discriminate].
    simpl in H. destruct (embedding_of res) as [v|e] eqn:Ev; [|discriminate].
    apply IH in H. destruct H as (new & -> & Hmap & Hall).
    exists ({| emb_text := chunk; embedding := v |} :: new).
    rewrite <- app_assoc. simpl. rewrite Hmap. repeat split.
    constructor; [|assumption]. exists res. repeat split; assumption.
Qed.

(** The first answer that is not usable and has a status other than 200
    ends the batch with the fixed [RuntimeError]. *)
Lemma embed_loop_aborts (chunks : list string) :
  forall (acc : list embedded) (w : world) (i : nat) (res : response),
    nth_error (answers chunks w) i = Some (Returned res) ->
    status_code res <> 200 ->
    Forall usable (firstn i (answers chunks w)) ->
    fst (embed_loop chunks acc w)
    = Raised (RuntimeError "Embedding generation failed").
Proof.
  induction chunks as [|chunk rest IH]; intros acc w i res Hi Hs Hall;
    simpl in *.
  - destruct i; discriminate.
  - unfold bindM, raise, lift.
    destruct (post Embeddings chunk w) as [a w1]. destruct i as [|i]; simpl in *.
    + injection Hi as ->.
      destruct (Z.eqb_spec (status_code res) 200); [contradiction|].
      reflexivity.
    + inversion Hall as [|? ? (r & v & -> & E & Ev) Hrest]; subst.
      rewrite E. simpl. rewrite Ev. eapply IH; eassumption.
Qed.

(** When every answer is usable the batch returns. *)
Lemma embed_loop_succeeds (chunks : list string) :
  forall (acc : list embedded) (w : world),
    Forall usable (answers chunks w) ->
    exists l, fst (embed_loop chunks acc w) = Returned l.
Proof.
  induction chunks as [|chunk rest IH]; intros acc w Hall; simpl in *.
  - eexists. reflexivity.
  - unfold bindM, raise, lift.
    destruct (post Embeddings chunk w) as [a w1].
    inversion Hall as [|? ? (r & v & -> & E & Ev) Hrest]; subst.
    rewrite E. simpl. rewrite Ev. apply IH. assumption.
Qed.

(** C8 (amended): a batch that returns has one entry per input text, in
    the order of the texts, each with the embedding read from the answer to
    that text, all of status 200; so no partial list is ever returned.
    Where the first answer that is not usable has a status other than 200,
    the batch ends with the [RuntimeError] whose only content is the fixed
    message [Embedding generation failed]; the status of the provider is
    not part of it.  Where every answer is usable the batch returns. *)
Theorem embed_chunks_all_or_nothing (chunks : list string) (w : world) :
  (forall l w',
     embed_chunks chunks w = (Returned l, w') ->
     map emb_text l = chunks /\
     List.length l = List.length chunks /\
     Forall2 embedded_from l (answers chunks w)) /\
  (forall i res,
     nth_error (answers chunks w) i = Some (Returned res) ->
     status_code res <> 200 ->
     Forall usable (firstn i (answers chunks w)) ->
     fst (embed_chunks chunks w)
     = Raised (RuntimeError "Embedding generation failed")) /\
  (Forall usable (answers chunks w) ->
   exists l, fst (embed_chunks chunks w) = Returned l).
Proof.
  unfold embed_chunks. split; [|split].
  - intros l w' H. apply embed_loop_returned in H.
    destruct H as (new & -> & Hmap & Hall). simpl.
    split; [assumption|]. split; [|assumption].
    rewrite <- Hmap, length_map. reflexivity.
  - intros i res. apply embed_loop_aborts.
  - apply embed_loop_succeeds.
Qed.

End Embedding.

(** C8 as stated fails: the error of an aborted batch does not carry the
    status of the provider.  Answers with status 500 and with status 429 end
    the batch with one and the same exception, so no status can be read off
    the error. *)
Lemma embed_chunks_error_without_status :
  ~ (exists status_of : exn -> Z,
       forall res,
         In res [ {| status_code := 500; text := "Internal Server Error" |};
                  {| status_code := 429; text := "Too Many Requests" |} ] ->
         exists e,
           fst (embed_chunks ["chunk"] [Returned res]) = Raised e /\
           status_of e = status_code res).
Proof.
  intros [status_of H].
  destruct (H {| status_code := 500; text := "Internal Server Error" |})
    as (e1 & R1 & S1); [left; reflexivity|].
  destruct (H {| status_code := 429; text := "Too Many Requests" |})
    as (e2 & R2 & S2); [right; left; reflexivity|].
  vm_compute in R1, R2. injection R1 as <-. injection R2 as <-.
  simpl in S1, S2. congruence.
Qed.

(** A batch of two chunks with two usable answers returns both entries. *)
Example embed_chunks_two :
  fst (embed_chunks ["alpha"; "beta"]
         [ok (embedding_body "[1,0]"); ok (embedding_body "[0,1]")])
  = Returned [ {| emb_text := "alpha"; embedding := PList [PInt 1; PInt 0] |};
               {| emb_text := "beta"; embedding := PList [PInt 0; PInt 1] |} ].
Proof. reflexivity. Qed.

(** ** Scenarios of the parser and the report *)

(** A completion wrapped in a fence: the markers are removed, the text is
    decoded, and the report is [CLEAR]. *)
Example fenced_completion_is_clear :
  let completion :=
    "```json" ++ newline
      ++ "{" ++ Json.quoted "missing_fields" ++ ":[],"
      ++ Json.quoted "risks" ++ ":[]}" ++ newline ++ "```" in
  parse_ai_json Json.loads (PStr completion)
  = Returned (PDict [("missing_fields", PList []); ("risks", PList [])]) /\
  (ai_parsed <- parse_ai_json Json.loads (PStr completion) ;;
   report <- aggregate ai_parsed ;;
   py_getitem report (KStr "status"))
  = Returned (PStr "CLEAR").
Proof. split; reflexivity. Qed.

(** Prose instead of JSON: the fallback mapping keeps the text, and the
    report is built from the defaults. *)
Example prose_completion_degrades :
  parse_ai_json Json.loads (PStr "The document looks fine.")
  = Returned (fallback_mapping (PStr "The document looks fine.")) /\
  (ai_parsed <- parse_ai_json Json.loads (PStr "The document looks fine.") ;;
   aggregate ai_parsed)
  = Returned
      (PDict [("document_type", PStr "Unknown");
              ("status", PStr "CLEAR");
              ("issues", PDict [("missing_fields", PList []);
                                ("invalid_fields", PList []);
                                ("risks", PList [])]);
              ("message", PStr "Document analysis completed.")]).
Proof. split; reflexivity. Qed.

(** The key [invalid_fields] of the parsed mapping is not read: the report
    carries the empty list and stays [CLEAR]. *)
Example invalid_fields_not_read :
  aggregate (PDict [("invalid_fields", PList [PStr "ABN"])])
  = Returned
      (PDict [("document_type", PStr "Unknown");
              ("status", PStr "CLEAR");
              ("issues", PDict [("missing_fields", PList []);
                                ("invalid_fields", PList []);
                                ("risks", PList [])]);
              ("message", PStr "Document analysis completed.")]).
Proof. reflexivity. Qed.

(** One missing field makes the report [NEEDS_ATTENTION]. *)
Example missing_field_needs_attention :
  (report <- aggregate (PDict [("missing_fields", PList [PStr "ABN"])]) ;;
   py_getitem report (KStr "status"))
  = Returned (PStr "NEEDS_ATTENTION").
Proof. reflexivity. Qed.

(** A request that goes through: one chunk, two embedding calls, and a
    completion whose content is a JSON object. *)
Example validate_document_clear :
  option_map
    (fun run =>
       run [ok (embedding_body "[1,0]"); ok (embedding_body "[1,0]");
            ok (completion_body "{}")])
    (validate_document 2 "Invoice 42")
  = Some (Returned
            (PDict [("document_type", PStr "Unknown");
                    ("status", PStr "CLEAR");
                    ("issues", PDict [("missing_fields", PList []);
                                      ("invalid_fields", PList []);
                                      ("risks", PList [])]);
                    ("message", PStr "Document analysis completed.")]), []).
Proof. reflexivity. Qed.

(** * Further properties of the pipeline *)

(** ** Slices as lists of characters *)

Lemma list_of_substring (s : string) :
  forall n m,
    list_ascii_of_string (substring n m s)
    = firstn m (skipn n (list_ascii_of_string s)).
Proof.
  induction s as [|c s IH]; intros [|n] [|m]; simpl; try reflexivity.
  - rewrite IH. reflexivity.
  - rewrite IH. reflexivity.
  - rewrite IH. reflexivity.
Qed.

Lemma list_of_append (s1 s2 : string) :
  list_ascii_of_string (s1 ++ s2)
  = (list_ascii_of_string s1 ++ list_ascii_of_string s2)%list.
Proof. induction s1 as [|c s1 IH]; simpl; [|rewrite IH]; reflexivity. Qed.

Lemma length_list_of_string (s : string) :
  List.length (list_ascii_of_string s) = String.length s.
Proof. induction s as [|c s IH]; simpl; [|rewrite IH]; reflexivity. Qed.

Lemma list_of_string_inj (s1 s2 : string) :
  list_ascii_of_string s1 = list_ascii_of_string s2 -> s1 = s2.
Proof.
  intros H. rewrite <- (string_of_list_ascii_of_string s1),
    <- (string_of_list_ascii_of_string s2), H. reflexivity.
Qed.

(** A slice with bounds that are not negative keeps the characters from
    position [start] up to, not including, position [stop]. *)
Lemma list_of_str_slice (s : string) (start stop : Z) :
  0 <= start -> 0 <= stop ->
  list_ascii_of_string (str_slice s start stop)
  = skipn (Z.to_nat start) (firstn (Z.to_nat stop) (list_ascii_of_string s)).
Proof.
  intros Ha Hb. unfold str_slice, adjust_index. rewrite list_of_substring.
  destruct (Z.ltb_spec start 0); [lia|]. destruct (Z.ltb_spec stop 0); [lia|].
  rewrite skipn_firstn_comm.
  set (l := list_ascii_of_string s).
  assert (Hlen : len s = Z.of_nat (List.length l))
    by (unfold len, l; rewrite length_list_of_string; reflexivity).
  rewrite Hlen.
  destruct (Z.le_gt_cases (Z.of_nat (List.length l)) start) as [Hge|Hlt].
  - rewrite (skipn_all2 l (n := Z.to_nat (Z.min start _))) by lia.
    rewrite (skipn_all2 l (n := Z.to_nat start)) by lia.
    rewrite !firstn_nil. reflexivity.
  - rewrite (Z.min_l start) by lia.
    destruct (Z.le_gt_cases stop (Z.of_nat (List.length l))) as [Hb'|Hb'].
    + rewrite (Z.min_l stop) by lia. f_equal. lia.
    + rewrite (Z.min_r stop) by lia.
      rewrite !firstn_all2; try reflexivity; rewrite length_skipn; lia.
Qed.

Lemma str_slice_append (s : string) (a b c : Z) :
  0 <= a <= b -> b <= c ->
  str_slice s a b ++ str_slice s b c = str_slice s a c.
Proof.
  intros Hab Hbc. apply list_of_string_inj.
  rewrite list_of_append, !list_of_str_slice by lia.
  set (l := list_ascii_of_string s).
  assert (Hsplit : firstn (Z.to_nat c) l
                   = (firstn (Z.to_nat b) l
                      ++ skipn (Z.to_nat b) (firstn (Z.to_nat c) l))%list).
  { rewrite <- (firstn_skipn (Z.to_nat b) (firstn (Z.to_nat c) l)) at 1.
    rewrite firstn_firstn, Nat.min_l by lia. reflexivity. }
  rewrite Hsplit at 2. rewrite skipn_app. f_equal.
  destruct (Nat.le_gt_cases (Z.to_nat a) (List.length (firstn (Z.to_nat b) l)))
    as [Hle|Hgt].
  - replace (Z.to_nat a - List.length (firstn (Z.to_nat b) l))%nat with 0%nat
      by lia.
    reflexivity.
  - rewrite length_firstn in Hgt.
    rewrite (skipn_all2 (firstn (Z.to_nat c) l) (n := Z.to_nat b)).
    + rewrite skipn_nil. reflexivity.
    + rewrite length_firstn. lia.
Qed.

Lemma str_slice_all (s : string) (stop : Z) :
  len s <= stop -> str_slice s 0 stop = s.
Proof. apply str_slice_whole. Qed.

(** Dropping the first [k] characters of a slice moves its start. *)
Lemma drop_overlap_slice (s : string) (a b k : Z) :
  0 <= a -> 0 <= b -> 0 <= k ->
  drop_overlap k (str_slice s a b) = str_slice s (a + k) b.
Proof.
  intros Ha Hb Hk. unfold drop_overlap. apply list_of_string_inj.
  assert (0 <= len (str_slice s a b)) by (unfold len; lia).
  rewrite (list_of_str_slice (str_slice s a b)) by lia.
  rewrite firstn_all2
    by (unfold len; rewrite length_list_of_string; lia).
  rewrite !list_of_str_slice by lia.
  rewrite skipn_skipn. f_equal. lia.
Qed.

Lemma len_str_slice (s : string) (a b : Z) :
  0 <= a <= b ->
  len (str_slice s a b) = Z.min b (len s) - Z.min a (len s).
Proof.
  intros H. unfold str_slice. unfold len at 1. rewrite length_substring.
  unfold adjust_index.
  destruct (Z.ltb_spec a 0); [lia|]. destruct (Z.ltb_spec b 0); [lia|].
  unfold len in *. lia.
Qed.

Lemma str_slice_empty (s : string) (a : Z) : 0 <= a -> str_slice s a a = "".
Proof.
  intros H. pose proof (len_str_slice s a a ltac:(lia)) as Hl.
  destruct (str_slice s a a); [reflexivity|]. unfold len in Hl. simpl in Hl. lia.
Qed.

Lemma append_empty_r (s : string) : s ++ "" = s.
Proof. induction s as [|c s IH]; simpl; [|rewrite IH]; reflexivity. Qed.

Lemma concat_empty_cons (x : string) (xs : list string) :
  String.concat "" (x :: xs) = x ++ String.concat "" xs.
Proof. destruct xs; simpl; [rewrite append_empty_r|]; reflexivity. Qed.

Lemma len_zero_empty (s : string) : len s <= 0 -> s = "".
Proof. destruct s; [reflexivity|]. unfold len. simpl. lia. Qed.

(** ** More on ceiling division *)

Lemma ceil_div_gt (a b k : Z) : 0 < b -> k < ceil_div a b -> k * b < a.
Proof.
  intros Hb Hk. unfold ceil_div in Hk.
  destruct (Z.le_gt_cases a (k * b)) as [Hle|Hgt]; [|assumption].
  assert (- k <= (- a) / b) by (apply Z.div_le_lower_bound; nia). lia.
Qed.

Lemma ceil_div_mul_ge (a b : Z) : 0 < b -> a <= ceil_div a b * b.
Proof.
  intros Hb. unfold ceil_div.
  pose proof (Z.mul_div_le (- a) b Hb). nia.
Qed.

Lemma ceil_div_le_self (a b : Z) : 0 <= a -> 0 < b -> ceil_div a b <= a.
Proof.
  intros Ha Hb. unfold ceil_div.
  assert (- a <= (- a) / b) by (apply Z.div_le_lower_bound; nia). lia.
Qed.

(** ** What the chunks are *)

(** With valid parameters [chunk_text] returns the windows that start at the
    multiples of the step below [len text]. *)
Lemma chunk_text_returns_windows (text : string) (chunk_size overlap : Z) :
  0 <= overlap < chunk_size ->
  chunk_text_returns text chunk_size overlap
    (windows text chunk_size (chunk_size - overlap) 0
       (Z.to_nat (chunk_count text chunk_size overlap))).
Proof.
  intros Hov.
  exists (S (Z.to_nat (chunk_count text chunk_size overlap))).
  unfold chunk_text, chunk_count.
  rewrite (chunk_loop_windows text chunk_size overlap)
    with (n := Z.to_nat (ceil_div (len text) (chunk_size - overlap)));
    [reflexivity | lia | rewrite Z.sub_0_r; reflexivity | lia].
Qed.

Lemma nth_error_windows (text : string) (chunk_size step start : Z)
    (n k : nat) (c : string) :
  nth_error (windows text chunk_size step start n) k = Some c ->
  (k < n)%nat /\
  c = str_slice text (start + Z.of_nat k * step)
                     (start + Z.of_nat k * step + chunk_size).
Proof.
  unfold windows. intros H.
  assert (Hk : (k < n)%nat).
  { assert (Hs : nth_error
                   (map (fun k => str_slice text (start + Z.of_nat k * step)
                                   (start + Z.of_nat k * step + chunk_size))
                        (seq 0 n)) k <> None)
      by (rewrite H; discriminate).
    apply nth_error_Some in Hs. rewrite length_map, length_seq in Hs.
    exact Hs. }
  split; [exact Hk|].
  rewrite nth_error_map, nth_error_seq in H.
  destruct (Nat.ltb_spec k n); [|lia]. simpl in H. injection H as <-. reflexivity.
Qed.

(** Every chunk of the result is one of the windows. *)
Lemma returned_chunk (text : string) (chunk_size overlap : Z)
    (chunks : list string) (k : nat) (c : string) :
  0 <= overlap < chunk_size ->
  chunk_text_returns text chunk_size overlap chunks ->
  nth_error chunks k = Some c ->
  (k < Z.to_nat (chunk_count text chunk_size overlap))%nat /\
  c = str_slice text (Z.of_nat k * (chunk_size - overlap))
                     (Z.of_nat k * (chunk_size - overlap) + chunk_size).
Proof.
  intros Hov Hret Hk.
  rewrite (chunk_text_returns_unique _ _ _ _ _ Hret
             (chunk_text_returns_windows text chunk_size overlap Hov)) in Hk.
  apply nth_error_windows in Hk. rewrite !Z.add_0_l in Hk. exact Hk.
Qed.

(** The chunk at position [k] is the slice of [chunk_size] characters that
    starts at offset [k * (chunk_size - overlap)], an offset inside the
    text; it is cut short only by the end of the text. *)
Theorem chunk_text_offsets (text : string) (chunk_size overlap : Z)
    (chunks : list string) (k : nat) (c : string) :
  0 <= overlap < chunk_size ->
  chunk_text_returns text chunk_size overlap chunks ->
  nth_error chunks k = Some c ->
  Z.of_nat k * (chunk_size - overlap) < len text /\
  c = str_slice text (Z.of_nat k * (chunk_size - overlap))
                     (Z.of_nat k * (chunk_size - overlap) + chunk_size) /\
  len c = Z.min chunk_size (len text - Z.of_nat k * (chunk_size - overlap)).
Proof.
  intros Hov Hret Hk.
  destruct (returned_chunk _ _ _ _ _ _ Hov Hret Hk) as [Hlt ->].
  assert (Hoff : Z.of_nat k * (chunk_size - overlap) < len text).
  { apply ceil_div_gt; [lia|]. unfold chunk_count in Hlt. lia. }
  split; [exact Hoff|]. split; [reflexivity|].
  rewrite len_str_slice by nia. lia.
Qed.

Lemma chunk_text_offsets_witness :
  0 <= 1 < 4 /\
  chunk_text_returns "abcdefgh" 4 1 ["abcd"; "defg"; "gh"] /\
  nth_error ["abcd"; "defg"; "gh"] 2 = Some "gh" /\
  Z.of_nat 2 * (4 - 1) < len "abcdefgh" /\
  "gh" = str_slice "abcdefgh" (Z.of_nat 2 * (4 - 1)) (Z.of_nat 2 * (4 - 1) + 4) /\
  len "gh" = Z.min 4 (len "abcdefgh" - Z.of_nat 2 * (4 - 1)).
Proof.
  assert (H1 : 0 <= 1 < 4) by (split; [discriminate | reflexivity]).
  assert (H2 : chunk_text_returns "abcdefgh" 4 1 ["abcd"; "defg"; "gh"])
    by (exists 4%nat; reflexivity).
  assert (H3 : nth_error ["abcd"; "defg"; "gh"] 2 = Some "gh") by reflexivity.
  split; [exact H1|]. split; [exact H2|]. split; [exact H3|].
  exact (chunk_text_offsets "abcdefgh" 4 1 _ 2 "gh" H1 H2 H3).
Defined.

(** With valid parameters no chunk is empty, and there is a chunk exactly
    when the text is not empty. *)
Theorem chunk_text_no_empty_chunk (text : string) (chunk_size overlap : Z)
    (chunks : list string) :
  0 <= overlap < chunk_size ->
  chunk_text_returns text chunk_size overlap chunks ->
  Forall (fun c => c <> "") chunks /\
  (chunks = [] <-> text = "").
Proof.
  intros Hov Hret. split.
  - apply Forall_forall. intros c Hin.
    apply In_nth_error in Hin. destruct Hin as [k Hk].
    destruct (returned_chunk _ _ _ _ _ _ Hov Hret Hk) as [Hlt Hc].
    assert (Hoff : Z.of_nat k * (chunk_size - overlap) < len text).
    { apply ceil_div_gt; [lia|]. unfold chunk_count in Hlt. lia. }
    intros ->. apply (f_equal len) in Hc.
    rewrite len_str_slice in Hc by nia. change (len "") with 0 in Hc. lia.
  - pose proof (chunk_text_returns_unique _ _ _ _ _ Hret
                  (chunk_text_returns_windows text chunk_size overlap Hov)) as ->.
    unfold chunk_count. split.
    + intros H. apply (f_equal (@List.length string)) in H.
      rewrite length_windows in H. simpl in H.
      apply len_zero_empty.
      destruct (Z.le_gt_cases (len text) 0) as [Hle|Hgt]; [exact Hle|].
      pose proof (ceil_div_pos (len text) (chunk_size - overlap)). lia.
    + intros ->. reflexivity.
Qed.

Lemma chunk_text_no_empty_chunk_witness :
  0 <= 1 < 4 /\
  chunk_text_returns "abcdefgh" 4 1 ["abcd"; "defg"; "gh"] /\
  Forall (fun c => c <> "") ["abcd"; "defg"; "gh"] /\
  (["abcd"; "defg"; "gh"] = [] <-> "abcdefgh" = "").
Proof.
  assert (H1 : 0 <= 1 < 4) by (split; [discriminate | reflexivity]).
  assert (H2 : chunk_text_returns "abcdefgh" 4 1 ["abcd"; "defg"; "gh"])
    by (exists 4%nat; reflexivity).
  split; [exact H1|]. split; [exact H2|].
  exact (chunk_text_no_empty_chunk "abcdefgh" 4 1 _ H1 H2).
Defined.

(** ** Reading the text back from the chunks *)

Lemma concat_drop_windows (text : string) (chunk_size overlap : Z) :
  0 <= overlap < chunk_size ->
  forall (m : nat) (start : Z),
    0 <= start ->
    String.concat ""
      (map (drop_overlap overlap)
           (windows text chunk_size (chunk_size - overlap) start m))
    = str_slice text (start + overlap)
                     (start + overlap + Z.of_nat m * (chunk_size - overlap)).
Proof.
  intros Hov. induction m as [|m IH]; intros start Hstart.
  - simpl. rewrite Z.add_0_r, str_slice_empty by lia. reflexivity.
  - rewrite windows_S. cbn [map]. rewrite concat_empty_cons.
    rewrite IH by lia. rewrite drop_overlap_slice by lia.
    replace (start + (chunk_size - overlap) + overlap) with (start + chunk_size)
      by lia.
    rewrite str_slice_append by nia. f_equal. lia.
Qed.

(** No character is lost and none is out of place: the first chunk followed
    by the later chunks without their first [overlap] characters is the
    text. *)
Theorem chunk_text_reassemble (text : string) (chunk_size overlap : Z)
    (chunks : list string) :
  0 <= overlap < chunk_size ->
  chunk_text_returns text chunk_size overlap chunks ->
  reassemble overlap chunks = text.
Proof.
  intros Hov Hret.
  pose proof (chunk_text_returns_unique _ _ _ _ _ Hret
                (chunk_text_returns_windows text chunk_size overlap Hov)) as ->.
  unfold chunk_count.
  destruct (Z.to_nat (ceil_div (len text) (chunk_size - overlap))) as [|m] eqn:En.
  - simpl. symmetry. apply len_zero_empty.
    destruct (Z.le_gt_cases (len text) 0) as [Hle|Hgt]; [exact Hle|].
    pose proof (ceil_div_pos (len text) (chunk_size - overlap)). lia.
  - rewrite windows_S. unfold reassemble.
    rewrite concat_drop_windows by lia.
    replace (0 + (chunk_size - overlap) + overlap) with (0 + chunk_size) by lia.
    rewrite str_slice_append by nia.
    apply str_slice_whole.
    pose proof (ceil_div_mul_ge (len text) (chunk_size - overlap)). nia.
Qed.

Lemma chunk_text_reassemble_witness :
  0 <= 1 < 4 /\
  chunk_text_returns "abcdefgh" 4 1 ["abcd"; "defg"; "gh"] /\
  reassemble 1 ["abcd"; "defg"; "gh"] = "abcdefgh".
Proof.
  assert (H1 : 0 <= 1 < 4) by (split; [discriminate | reflexivity]).
  assert (H2 : chunk_text_returns "abcdefgh" 4 1 ["abcd"; "defg"; "gh"])
    by (exists 4%nat; reflexivity).
  split; [exact H1|]. split; [exact H2|].
  exact (chunk_text_reassemble "abcdefgh" 4 1 _ H1 H2).
Defined.

(** ** Termination under the parameters of the pipeline *)

(** With valid parameters one iteration per character, and one more to
    leave the loop, is enough. *)
Lemma chunk_text_enough_fuel (fuel : nat) (text : string)
    (chunk_size overlap : Z) :
  0 <= overlap < chunk_size ->
  (String.length text < fuel)%nat ->
  exists chunks, chunk_text fuel text chunk_size overlap = Some chunks.
Proof.
  intros Hov Hfuel. eexists. unfold chunk_text.
  apply (chunk_loop_windows text chunk_size overlap)
    with (n := Z.to_nat (ceil_div (len text - 0) (chunk_size - overlap)));
    [lia | reflexivity |].
  rewrite Z.sub_0_r.
  pose proof (ceil_div_le_self (len text) (chunk_size - overlap)).
  unfold len in *. lia.
Qed.

(** The request never hangs in the chunking loop: whatever the text, the
    loop has ended after one iteration per character and one more. *)
Theorem validate_document_terminates {world : Type} {RT : Runtime world}
    {F32 : Float32} (fuel : nat) (text : string) :
  (String.length text < fuel)%nat ->
  exists run : M pyval, validate_document fuel text = Some run.
Proof.
  intros Hfuel. unfold validate_document.
  destruct (negb (truthy (PStr (strip text)))); [eexists; reflexivity|].
  destruct (chunk_text_enough_fuel fuel text default_chunk_size default_overlap)
    as [chunks ->]; [unfold default_overlap, default_chunk_size; lia | exact Hfuel |].
  eexists. reflexivity.
Qed.

Lemma validate_document_terminates_witness :
  (String.length "Invoice 42" < 11)%nat /\
  exists run : M pyval, validate_document 11 "Invoice 42" = Some run.
Proof.
  assert (H : (String.length "Invoice 42" < 11)%nat) by (simpl; lia).
  split; [exact H|].
  exact (validate_document_terminates (world := list (outcome response))
           11 "Invoice 42" H).
Defined.

(** ** Blank text *)

Lemma all_space_lstrip (s : string) :
  forallb isspace (list_ascii_of_string (lstrip s))
  = forallb isspace (list_ascii_of_string s).
Proof.
  induction s as [|c s IH]; simpl; [reflexivity|].
  destruct (isspace c) eqn:E; simpl; [exact IH | rewrite E; reflexivity].
Qed.

Lemma rstrip_empty (s : string) :
  rstrip s = "" <-> forallb isspace (list_ascii_of_string s) = true.
Proof.
  induction s as [|c s IH]; simpl; [tauto|].
  destruct (rstrip s) as [|c' r] eqn:Er.
  - destruct (isspace c); simpl.
    + split; [intros _; apply IH; reflexivity | reflexivity].
    + split; discriminate.
  - split; [discriminate|]. intros H. apply andb_true_iff in H.
    destruct H as [_ H]. apply IH in H. discriminate.
Qed.

(** [strip] leaves nothing exactly of the texts made of whitespace only. *)
Lemma strip_empty (s : string) :
  strip s = "" <-> forallb isspace (list_ascii_of_string s) = true.
Proof. unfold strip. rewrite rstrip_empty, all_space_lstrip. tauto. Qed.

Lemma all_space_append (s1 s2 : string) :
  forallb isspace (list_ascii_of_string (s1 ++ s2))
  = forallb isspace (list_ascii_of_string s1)
    && forallb isspace (list_ascii_of_string s2).
Proof. rewrite list_of_append. apply forallb_app. Qed.

Lemma all_space_join (parts : list string) :
  Forall (fun p => forallb isspace (list_ascii_of_string p) = true) parts ->
  forallb isspace (list_ascii_of_string (str_join newline parts)) = true.
Proof.
  unfold str_join. induction 1 as [|p parts Hp _ IH]; [reflexivity|].
  destruct parts as [|p' parts]; [exact Hp|].
  change (String.concat newline (p :: p' :: parts))
    with (p ++ newline ++ String.concat newline (p' :: parts)).
  rewrite !all_space_append, Hp, IH. reflexivity.
Qed.

Section Blank.

Context {world : Type} {RT : Runtime world} {F32 : Float32}.

(** A text made of whitespace only is refused with status 400 before the
    chunking loop starts and before any provider is called: the world is
    left as it was. *)
Theorem validate_document_rejects_blank (fuel : nat) (text : string) (w : world) :
  forallb isspace (list_ascii_of_string text) = true ->
  option_map (fun run : M pyval => run w) (validate_document fuel text)
  = Some (Raised (HTTPException 400 "No text extracted from document"), w).
Proof.
  intros H. apply strip_empty in H. unfold validate_document. rewrite H.
  reflexivity.
Qed.

(** A text with a character that is not whitespace reaches the embedding
    step, and with at least one chunk. *)
Theorem validate_document_has_chunk (fuel : nat) (text : string) :
  forallb isspace (list_ascii_of_string text) = false ->
  (String.length text < fuel)%nat ->
  exists chunks,
    chunks <> [] /\
    chunk_text_returns text default_chunk_size default_overlap chunks /\
    validate_document fuel text = Some (validate_chunks chunks).
Proof.
  intros Hns Hfuel.
  assert (Hov : 0 <= default_overlap < default_chunk_size)
    by (unfold default_overlap, default_chunk_size; lia).
  destruct (chunk_text_enough_fuel fuel text _ _ Hov Hfuel) as [chunks Hc].
  assert (Hret : chunk_text_returns text default_chunk_size default_overlap chunks)
    by (exists fuel; exact Hc).
  exists chunks. split; [|split; [exact Hret|]].
  - intros ->.
    pose proof (chunk_text_returns_unique _ _ _ _ _ Hret
                  (chunk_text_returns_windows text _ _ Hov)) as Hw.
    apply (f_equal (@List.length string)) in Hw.
    rewrite length_windows in Hw. simpl in Hw. unfold chunk_count in Hw.
    destruct text as [|c text]; [discriminate Hns|].
    pose proof (ceil_div_pos (len (String c text))
                  (default_chunk_size - default_overlap)) as Hp.
    unfold len in Hp. simpl String.length in Hp. unfold len in Hw.
    simpl String.length in Hw. lia.
  - unfold validate_document.
    destruct (strip text) eqn:Es.
    + apply strip_empty in Es. congruence.
    + simpl. rewrite Hc. reflexivity.
Qed.

End Blank.

Lemma validate_document_rejects_blank_witness :
  forallb isspace (list_ascii_of_string (" " ++ newline)) = true /\
  option_map (fun run : M pyval => run [ok "unused"])
             (validate_document 0 (" " ++ newline))
  = Some (Raised (HTTPException 400 "No text extracted from document"),
          [ok "unused"]).
Proof.
  assert (H : forallb isspace (list_ascii_of_string (" " ++ newline)) = true)
    by reflexivity.
  split; [exact H|].
  exact (validate_document_rejects_blank 0 (" " ++ newline) [ok "unused"] H).
Defined.

Lemma validate_document_has_chunk_witness :
  forallb isspace (list_ascii_of_string " Invoice 42 ") = false /\
  (String.length " Invoice 42 " < 13)%nat /\
  exists chunks,
    chunks <> [] /\
    chunk_text_returns " Invoice 42 " default_chunk_size default_overlap chunks /\
    validate_document (world := list (outcome response)) 13 " Invoice 42 "
    = Some (validate_chunks chunks).
Proof.
  assert (H1 : forallb isspace (list_ascii_of_string " Invoice 42 ") = false)
    by reflexivity.
  assert (H2 : (String.length " Invoice 42 " < 13)%nat) by (simpl; lia).
  split; [exact H1|]. split; [exact H2|].
  exact (validate_document_has_chunk (world := list (outcome response))
           13 " Invoice 42 " H1 H2).
Defined.

(** ** Text extraction *)

Lemma str_lower_append (s1 s2 : string) :
  str_lower (s1 ++ s2) = str_lower s1 ++ str_lower s2.
Proof. induction s1 as [|c s1 IH]; simpl; [|rewrite IH]; reflexivity. Qed.

Lemma length_str_lower (s : string) :
  String.length (str_lower s) = String.length s.
Proof. induction s as [|c s IH]; simpl; [|rewrite IH]; reflexivity. Qed.

(** Whether a text ends with a suffix is decided by its last characters. *)
Lemma str_endswith_append (s1 s2 suffix : string) :
  (String.length suffix <= String.length s2)%nat ->
  str_endswith (s1 ++ s2) suffix = str_endswith s2 suffix.
Proof.
  intros Hm. unfold str_endswith. rewrite str_length_append.
  destruct (Nat.leb_spec (String.length suffix) (String.length s2)); [|lia].
  destruct (Nat.leb_spec (String.length suffix)
              (String.length s1 + String.length s2)); [|lia].
  simpl. f_equal. apply list_of_string_inj.
  rewrite !list_of_substring, list_of_append, skipn_app.
  rewrite skipn_all2 by (rewrite length_list_of_string; lia).
  rewrite length_list_of_string. simpl. do 2 f_equal. lia.
Qed.

Section Extraction.

Context {content : Type} {RD : Readers content}.

(** The reader is chosen by the last characters of the file name, whatever
    their letter case and whatever comes before them: a name that ends in
    [.pdf] in any case is read page by page, a name that ends in [.docx] in
    any case paragraph by paragraph, and the texts are joined by line
    breaks, a page without text counting as the empty text. *)
Theorem extract_text_extension (stem ext : string) (c : content) :
  (str_lower ext = ".pdf" ->
   extract_text {| filename := Some (stem ++ ext); file := c |}
   = (pages <- pdf_pages c ;;
      Returned (str_join newline (map page_text pages)))) /\
  (str_lower ext = ".docx" ->
   extract_text {| filename := Some (stem ++ ext); file := c |}
   = (paragraphs <- docx_paragraphs c ;;
      Returned (str_join newline paragraphs))).
Proof.
  unfold extract_text. simpl. rewrite str_lower_append. split; intros He.
  - rewrite !str_endswith_append, He
      by (rewrite length_str_lower, <- (length_str_lower ext), He; simpl; lia).
    reflexivity.
  - rewrite !str_endswith_append, He
      by (rewrite length_str_lower, <- (length_str_lower ext), He; simpl; lia).
    reflexivity.
Qed.

Context {world : Type} {RT : Runtime world} {F32 : Float32}.

(** A PDF in which no page has a character other than whitespace is refused
    with status 400 and the detail [No text extracted from document]; no
    provider is called. *)
Theorem validate_upload_pdf_without_text (fuel : nat) (f : upload content)
    (name : string) (pages : list (option string)) (w : world) :
  filename f = Some name ->
  str_endswith (str_lower name) ".pdf" = true ->
  pdf_pages (file f) = Returned pages ->
  Forall (fun p => forallb isspace (list_ascii_of_string (page_text p)) = true)
         pages ->
  option_map (fun run : M pyval => run w) (validate_upload fuel f)
  = Some (Raised (HTTPException 400 "No text extracted from document"), w).
Proof.
  intros Hname Hpdf Hpages Hblank.
  unfold validate_upload, extract_text. rewrite Hname, Hpdf, Hpages.
  cbn [bind]. unfold validate_document.
  assert (Hstrip : strip (str_join newline (map page_text pages)) = "").
  { apply strip_empty, all_space_join, Forall_map. exact Hblank. }
  rewrite Hstrip. reflexivity.
Qed.

End Extraction.

Lemma validate_upload_pdf_without_text_witness :
  filename {| filename := Some "Scan.PDF"; file := [None; Some " "; Some ""] |}
  = Some "Scan.PDF" /\
  str_endswith (str_lower "Scan.PDF") ".pdf" = true /\
  pdf_pages (file {| filename := Some "Scan.PDF";
                     file := [None; Some " "; Some ""] |})
  = Returned [None; Some " "; Some ""] /\
  Forall (fun p => forallb isspace (list_ascii_of_string (page_text p)) = true)
         [None; Some " "; Some ""] /\
  option_map (fun run : M pyval => run [ok "unused"])
    (validate_upload 0 {| filename := Some "Scan.PDF";
                          file := [None; Some " "; Some ""] |})
  = Some (Raised (HTTPException 400 "No text extracted from document"),
          [ok "unused"]).
Proof.
  assert (H4 : Forall (fun p => forallb isspace
                                  (list_ascii_of_string (page_text p)) = true)
                 [None; Some " "; Some ""])
    by (repeat constructor).
  split; [reflexivity|]. split; [reflexivity|]. split; [reflexivity|].
  split; [exact H4|].
  exact (validate_upload_pdf_without_text 0
           {| filename := Some "Scan.PDF"; file := [None; Some " "; Some ""] |}
           "Scan.PDF" [None; Some " "; Some ""] [ok "unused"]
           eq_refl eq_refl eq_refl H4).
Defined.

(** Letter case in practice. *)
Example extract_text_mixed_case :
  extract_text {| filename := Some "Report.PdF"; file := [Some "a"; None; Some "b"] |}
  = Returned ("a" ++ newline ++ newline ++ "b") /\
  extract_text {| filename := Some "notes.txt"; file := [Some "a"] |}
  = Raised (HTTPException 400 "Unsupported file format") /\
  extract_text {| filename := None; file := [Some "a"] |}
  = Raised AttributeError.
Proof. repeat split. Qed.

(** ** The context *)

Lemma prefix_substring (s : string) :
  forall m, prefix (substring 0 m s) s = true.
Proof.
  induction s as [|c s IH]; intros [|m]; simpl; try reflexivity.
  destruct (ascii_dec c c); [apply IH | congruence].
Qed.

(** The context is the start of the joined texts, cut after
    [MAX_CONTEXT_CHARS] characters: it never holds more, and it holds fewer
    only when the joined texts are shorter. *)
Theorem assemble_context_is_prefix (relevant_chunks : list string) :
  prefix (assemble_context relevant_chunks)
         (str_join newline relevant_chunks) = true /\
  len (assemble_context relevant_chunks)
  = Z.min MAX_CONTEXT_CHARS (len (str_join newline relevant_chunks)) /\
  len (assemble_context relevant_chunks) <= MAX_CONTEXT_CHARS.
Proof.
  unfold assemble_context. cbv zeta.
  set (joined := str_join newline relevant_chunks).
  assert (Hl : len (str_slice joined 0 MAX_CONTEXT_CHARS)
               = Z.min MAX_CONTEXT_CHARS (len joined)).
  { rewrite len_str_slice by (unfold MAX_CONTEXT_CHARS; lia).
    assert (0 <= len joined) by (unfold len; lia). lia. }
  split; [|split; [exact Hl | lia]].
  unfold str_slice, adjust_index. simpl (0 <? 0).
  cbv iota. rewrite (Z.min_l 0) by (unfold len; lia). apply prefix_substring.
Qed.

(** ** The vector store *)

Section Store.

Context {F32 : Float32}.

(** A store that has been built is not empty; its texts are the texts of
    the entries, in order; its vectors are the rows numpy made of the
    embeddings, and every one of them has the dimension of the index, which
    is the length of the first embedding. *)
Theorem build_vector_store_returned (embedded_chunks : list embedded)
    (idx : index) (texts : list string) :
  build_vector_store embedded_chunks = Returned (idx, texts) ->
  texts = map emb_text embedded_chunks /\
  np_array_float32 (map embedding embedded_chunks) = Returned (xb idx) /\
  Forall (fun v => Z.of_nat (List.length v) = d idx) (xb idx) /\
  exists first rest,
    embedded_chunks = first :: rest /\
    py_len (embedding first) = Returned (d idx).
Proof.
  unfold build_vector_store. intros H.
  destruct embedded_chunks as [|first rest]; [discriminate|].
  change (list_getitem (first :: rest) 0) with (Returned first) in H.
  cbn [bind] in H.
  destruct (py_len (embedding first)) as [dim|e] eqn:Edim; [|discriminate].
  cbn [bind] in H.
  destruct (np_array_float32 (map embedding (first :: rest))) as [vectors|e]
    eqn:Enp; [|discriminate].
  cbn [bind] in H. unfold index_add in H. cbn [d xb] in H.
  destruct (forallb _ vectors) eqn:Eall; [|discriminate].
  cbn [bind] in H. injection H as <- <-. cbn [d xb app].
  split; [reflexivity|]. split; [reflexivity|]. split.
  - apply Forall_forall. intros v Hv.
    apply (proj1 (forallb_forall _ _) Eall) in Hv. apply Z.eqb_eq in Hv. exact Hv.
  - exists first, rest. split; [reflexivity | exact Edim].
Qed.

End Store.

Lemma build_vector_store_returned_witness :
  build_vector_store
    [ {| emb_text := "alpha"; embedding := PList [PInt 1; PInt 0] |};
      {| emb_text := "beta"; embedding := PList [PInt 0; PInt 1] |} ]
  = Returned (hello_index, ["alpha"; "beta"]) /\
  ["alpha"; "beta"]
  = map emb_text
      [ {| emb_text := "alpha"; embedding := PList [PInt 1; PInt 0] |};
        {| emb_text := "beta"; embedding := PList [PInt 0; PInt 1] |} ] /\
  np_array_float32
    (map embedding
       [ {| emb_text := "alpha"; embedding := PList [PInt 1; PInt 0] |};
         {| emb_text := "beta"; embedding := PList [PInt 0; PInt 1] |} ])
  = Returned (xb hello_index) /\
  Forall (fun v => Z.of_nat (List.length v) = d hello_index) (xb hello_index) /\
  exists first rest,
    [ {| emb_text := "alpha"; embedding := PList [PInt 1; PInt 0] |};
      {| emb_text := "beta"; embedding := PList [PInt 0; PInt 1] |} ]
    = first :: rest /\
    py_len (embedding first) = Returned (d hello_index).
Proof.
  assert (H : build_vector_store
                [ {| emb_text := "alpha"; embedding := PList [PInt 1; PInt 0] |};
                  {| emb_text := "beta"; embedding := PList [PInt 0; PInt 1] |} ]
              = Returned (hello_index, ["alpha"; "beta"])) by reflexivity.
  split; [exact H|].
  exact (build_vector_store_returned _ _ _ H).
Defined.

(** ** One request per chunk *)

Section Requests.

Context {world : Type} {RT : Runtime world}.

Lemma embed_loop_world (chunks : list string) :
  forall (acc l : list embedded) (w w' : world),
    embed_loop chunks acc w = (Returned l, w') ->
    w' = after_requests chunks w.
Proof.
  induction chunks as [|chunk rest IH]; intros acc l w w' H; simpl in *.
  - unfold ret in H. injection H as _ <-. reflexivity.
  - unfold bindM, raise, lift in H.
    destruct (post Embeddings chunk w) as [[res|e] w1]; [|discriminate].
    destruct (negb (status_code res =? 200)); [discriminate|].
    destruct (embedding_of res) as [v|e]; [|discriminate].
    simpl. eapply IH. exact H.
Qed.

Lemma embed_loop_abort_world (chunks : list string) :
  forall (acc : list embedded) (w : world) (i : nat) (res : response),
    nth_error (answers chunks w) i = Some (Returned res) ->
    status_code res <> 200 ->
    Forall usable (firstn i (answers chunks w)) ->
    snd (embed_loop chunks acc w) = after_requests (firstn (S i) chunks) w.
Proof.
  induction chunks as [|chunk rest IH]; intros acc w i res Hi Hs Hall;
    simpl in *.
  - destruct i; discriminate.
  - unfold bindM, raise, lift.
    destruct (post Embeddings chunk w) as [a w1]. destruct i as [|i]; simpl in *.
    + injection Hi as ->.
      destruct (Z.eqb_spec (status_code res) 200); [contradiction|].
      reflexivity.
    + inversion Hall as [|? ? (r & v & -> & E & Ev) Hrest]; subst.
      rewrite E. simpl. rewrite Ev. eapply IH; eassumption.
Qed.

(** The batch sends one request per chunk, in the order of the chunks, and
    nothing else: after a batch that returns, the world is the world after
    these requests; after a batch that ends at the first answer with a
    status other than 200, it is the world after the requests up to that
    one, so no later chunk is sent and no request is repeated. *)
Theorem embed_chunks_requests (chunks : list string) (w : world) :
  (forall l w',
     embed_chunks chunks w = (Returned l, w') ->
     w' = after_requests chunks w) /\
  (forall i res,
     nth_error (answers chunks w) i = Some (Returned res) ->
     status_code res <> 200 ->
     Forall usable (firstn i (answers chunks w)) ->
     snd (embed_chunks chunks w) = after_requests (firstn (S i) chunks) w).
Proof.
  unfold embed_chunks. split.
  - intros l w'. apply embed_loop_world.
  - intros i res. apply embed_loop_abort_world.
Qed.

End Requests.

(** With scripted answers: the failing second answer ends the batch, and
    the third answer is still to come. *)
Example embed_chunks_stops_at_failure :
  embed_chunks ["a"; "b"; "c"]
    [ok (embedding_body "[1]");
     Returned {| status_code := 500; text := "" |};
     ok (embedding_body "[3]")]
  = (Raised (RuntimeError "Embedding generation failed"),
     [ok (embedding_body "[3]")]).
Proof. reflexivity. Qed.

(** ** What a search returns *)

Lemma map_outcome_app {A B : Type} (f : A -> outcome B) (l1 l2 : list A) :
  map_outcome f (l1 ++ l2)
  = (r1 <- map_outcome f l1 ;;
     r2 <- map_outcome f l2 ;;
     Returned (r1 ++ r2)%list).
Proof.
  induction l1 as [|x l1 IH]; simpl.
  - destruct (map_outcome f l2); reflexivity.
  - destruct (f x); simpl; [|reflexivity]. rewrite IH.
    destruct (map_outcome f l1); simpl; [|reflexivity].
    destruct (map_outcome f l2); reflexivity.
Qed.

Lemma map_outcome_map {A B : Type} (f : A -> outcome B) (g : A -> B)
    (l : list A) :
  Forall (fun x => f x = Returned (g x)) l ->
  map_outcome f l = Returned (map g l).
Proof.
  induction 1 as [|x l Hx _ IH]; simpl; [reflexivity|].
  rewrite Hx, IH. reflexivity.
Qed.

Lemma list_getitem_position {A : Type} (l : list A) (i : Z) (default : A) :
  0 <= i < Z.of_nat (List.length l) ->
  list_getitem l i = Returned (nth (Z.to_nat i) l default).
Proof.
  intros H. unfold list_getitem.
  destruct (Z.ltb_spec i 0); [lia|].
  destruct (Z.leb_spec 0 i); [|lia].
  destruct (Z.ltb_spec i (Z.of_nat (List.length l))); [|lia]. simpl.
  rewrite (nth_error_nth' l default) by lia. reflexivity.
Qed.

Lemma list_getitem_minus_one {A : Type} (l : list A) (default : A) :
  l <> [] -> list_getitem l (-1) = Returned (last l default).
Proof.
  intros Hne. destruct (exists_last Hne) as (l' & a & ->).
  rewrite last_last. unfold list_getitem. rewrite last_length.
  change (-1 <? 0) with true. cbv iota.
  destruct (Z.leb_spec 0 (-1 + Z.of_nat (S (List.length l')))); [|lia].
  destruct (Z.ltb_spec (-1 + Z.of_nat (S (List.length l')))
              (Z.of_nat (S (List.length l')))); [|lia].
  cbn [andb].
  replace (Z.to_nat (-1 + Z.of_nat (S (List.length l')))) with (List.length l')
    by lia.
  rewrite nth_error_app2, Nat.sub_diag by lia. reflexivity.
Qed.

Section SearchResult.

Context {world : Type} {RT : Runtime world} {F32 : Float32}.

Lemma insert_by_permutation (p : scalar * Z) (l : list (scalar * Z)) :
  Permutation (insert_by p l) (p :: l).
Proof.
  induction l as [|q l IH]; simpl; [reflexivity|].
  destruct (fleb (fst p) (fst q)); [reflexivity|].
  rewrite IH. apply perm_swap.
Qed.

Lemma sorted_permutation (l : list (scalar * Z)) :
  Permutation (fold_right insert_by [] l) l.
Proof.
  induction l as [|p l IH]; simpl; [reflexivity|].
  rewrite insert_by_permutation, IH. reflexivity.
Qed.

Lemma map_snd_combine {A B : Type} (l1 : list A) :
  forall l2 : list B,
    List.length l1 = List.length l2 -> map snd (combine l1 l2) = l2.
Proof.
  induction l1 as [|a l1 IH]; intros [|b l2] H; simpl in *;
    try reflexivity; try discriminate.
  rewrite IH by lia. reflexivity.
Qed.

(** Whatever the distances, a search visits every stored vector once. *)
Lemma nearest_permutation (idx : index) (q : list scalar) :
  Permutation (nearest idx q)
              (map Z.of_nat (seq 0 (List.length (xb idx)))).
Proof.
  unfold nearest. rewrite sorted_permutation.
  rewrite map_snd_combine; [reflexivity|].
  rewrite !length_map, length_seq. reflexivity.
Qed.

(** Over an index that holds one vector per text, a search with [top_k]
    returns the texts at the first [top_k] positions of an ordering of all
    positions, each position once; where the index holds fewer than [top_k]
    texts, the last text of the list follows once for every missing one. *)
Theorem semantic_search_result (idx : index) (texts : list string)
    (query : string) (top_k : Z) (w w' : world) (res : response)
    (query_embedding : pyval) (query_vector : list scalar) :
  post Embeddings query w = (Returned res, w') ->
  status_code res = 200 ->
  embedding_of res = Returned query_embedding ->
  np_array_float32 [query_embedding] = Returned [query_vector] ->
  Z.of_nat (List.length query_vector) = d idx ->
  List.length (xb idx) = List.length texts ->
  texts <> [] ->
  0 < top_k ->
  exists positions,
    Permutation positions (map Z.of_nat (seq 0 (List.length texts))) /\
    semantic_search idx texts query top_k w
    = (Returned
         (map (fun i => nth (Z.to_nat i) texts "")
              (firstn (Z.to_nat top_k) positions)
          ++ repeat (last texts "") (Z.to_nat top_k - List.length texts))%list,
       w').
Proof.
  intros Hpost Hs He Hnp Hd Hn Hne Hk.
  exists (nearest idx query_vector).
  pose proof (nearest_permutation idx query_vector) as Hperm.
  rewrite Hn in Hperm. split; [exact Hperm|].
  unfold semantic_search, bindM, raise, lift. rewrite Hpost, Hs.
  change (negb (200 =? 200)) with false. cbv iota.
  rewrite He, Hnp. cbn [bind]. unfold index_search.
  cbn [forallb]. rewrite Hd, Z.eqb_refl. cbn [andb].
  destruct (Z.ltb_spec 0 top_k); [|lia]. cbn [bind map].
  change (list_getitem [pad_labels (Z.to_nat top_k) (nearest idx query_vector)] 0)
    with (Returned (pad_labels (Z.to_nat top_k) (nearest idx query_vector))).
  cbn [bind]. unfold pad_labels. rewrite map_outcome_app.
  assert (Hlen : List.length (nearest idx query_vector) = List.length texts).
  { rewrite (Permutation_length Hperm), length_map, length_seq. reflexivity. }
  rewrite (map_outcome_map _ (fun i => nth (Z.to_nat i) texts "")).
  - cbn [bind].
    rewrite (map_outcome_map _ (fun _ => last texts "")).
    + cbn [bind]. rewrite map_repeat, length_firstn, Hlen.
      replace (Z.to_nat top_k - Nat.min (Z.to_nat top_k) (List.length texts))%nat
        with (Z.to_nat top_k - List.length texts)%nat by lia.
      reflexivity.
    + apply Forall_forall. intros i Hi. apply repeat_spec in Hi. subst i.
      apply list_getitem_minus_one. exact Hne.
  - apply Forall_forall. intros i Hi. apply list_getitem_position.
    assert (Hin : In i (nearest idx query_vector)).
    { rewrite <- (firstn_skipn (Z.to_nat top_k) (nearest idx query_vector)).
      apply in_or_app. left. exact Hi. }
    apply (Permutation_in _ Hperm), in_map_iff in Hin.
    destruct Hin as (k & <- & Hk'). apply in_seq in Hk'. lia.
Qed.

End SearchResult.

Lemma semantic_search_result_witness :
  post Embeddings "query" [ok (embedding_body "[0,1]")]
  = (Returned {| status_code := 200; text := embedding_body "[0,1]" |}, []) /\
  exists positions,
    Permutation positions (map Z.of_nat (seq 0 (List.length ["alpha"; "beta"]))) /\
    semantic_search hello_index ["alpha"; "beta"] "query" 3
      [ok (embedding_body "[0,1]")]
    = (Returned
         (map (fun i => nth (Z.to_nat i) ["alpha"; "beta"] "")
              (firstn (Z.to_nat 3) positions)
          ++ repeat (last ["alpha"; "beta"] "")
                    (Z.to_nat 3 - List.length ["alpha"; "beta"]))%list,
       []).
Proof.
  split; [reflexivity|].
  refine (semantic_search_result hello_index ["alpha"; "beta"] "query" 3
            [ok (embedding_body "[0,1]")] []
            {| status_code := 200; text := embedding_body "[0,1]" |}
            (PList [PInt 0; PInt 1]) [0; 1]
            eq_refl eq_refl eq_refl eq_refl eq_refl eq_refl _ _).
  - discriminate.
  - reflexivity.
Defined.

(** ** Removing the fence markers *)

Lemma re_sub_fences_cons (c : ascii) (s : string) :
  re_sub_fences 0 (String c s)
  = if prefix "```json" (String c s) then re_sub_fences 6 s
    else if prefix "```" (String c s) then re_sub_fences 2 s
    else String c (re_sub_fences 0 s).
Proof. reflexivity. Qed.

Lemma prefix_fence (s : string) :
  prefix "```" s = true <-> exists r, s = "```" ++ r.
Proof.
  split.
  - intros H. apply prefix_correct in H. simpl String.length in H.
    exists (substring 3 (String.length s - 3) s).
    destruct s as [|c1 [|c2 [|c3 s]]]; try discriminate H.
    simpl in H. injection H as -> -> ->. simpl.
    rewrite Nat.sub_0_r. f_equal. f_equal. f_equal.
    symmetry. apply substring_all. lia.
  - intros [r ->]. destruct r; reflexivity.
Qed.

Lemma prefix_json_fence (s : string) :
  prefix "```json" s = true -> prefix "```" s = true.
Proof.
  intros H. apply prefix_correct in H. apply prefix_fence.
  destruct s as [|c1 [|c2 [|c3 s]]]; try discriminate H.
  simpl in H. injection H as -> -> -> _. exists s. reflexivity.
Qed.

Lemma re_sub_fences_head (s r : string) :
  prefix "```" s = false ->
  re_sub_fences 0 s = String "`" r ->
  exists s', s = String "`" s' /\ r = re_sub_fences 0 s'.
Proof.
  intros Hp H. destruct s as [|c s']; [discriminate H|].
  rewrite re_sub_fences_cons, Hp in H.
  destruct (prefix "```json" (String c s')) eqn:Ej.
  - apply prefix_json_fence in Ej. congruence.
  - injection H as Hc Hr. subst c. exists s'.
    split; [reflexivity | symmetry; exact Hr].
Qed.

(** A character that does not start a marker in the text does not start
    one in the cleaned text either. *)
Lemma re_sub_fences_no_new_fence (c : ascii) (s : string) :
  prefix "```" (String c s) = false ->
  prefix "```" (String c (re_sub_fences 0 s)) = false.
Proof.
  intros Hp. destruct (prefix "```" (String c (re_sub_fences 0 s))) eqn:E;
    [|reflexivity].
  exfalso. apply prefix_fence in E. destruct E as [r E]. simpl in E.
  injection E as -> E.
  assert (Hfalse : prefix "```" (String "`" s) = true -> False) by congruence.
  destruct (prefix "```" s) eqn:E1.
  { apply prefix_fence in E1. destruct E1 as [r1 ->]. apply Hfalse. reflexivity. }
  destruct (re_sub_fences_head _ _ E1 E) as (s1 & -> & E').
  destruct (prefix "```" s1) eqn:E2.
  { apply prefix_fence in E2. destruct E2 as [r2 ->]. discriminate E1. }
  symmetry in E'.
  destruct (re_sub_fences_head _ _ E2 E') as (s2 & -> & _).
  apply Hfalse, prefix_fence. exists s2. reflexivity.
Qed.

Lemma re_sub_fences_clean (s : string) :
  forall skip, str_contains "```" (re_sub_fences skip s) = false.
Proof.
  induction s as [|c s IH]; intros [|k]; try reflexivity.
  - rewrite re_sub_fences_cons.
    destruct (prefix "```json" (String c s)); [apply IH|].
    destruct (prefix "```" (String c s)) eqn:Ep; [apply IH|].
    change (str_contains "```" (String c (re_sub_fences 0 s)))
      with (prefix "```" (String c (re_sub_fences 0 s))
            || str_contains "```" (re_sub_fences 0 s)).
    rewrite re_sub_fences_no_new_fence by exact Ep. apply IH.
  - apply IH.
Qed.

Lemma re_sub_fences_unchanged (s : string) :
  str_contains "```" s = false -> re_sub_fences 0 s = s.
Proof.
  induction s as [|c s IH]; [reflexivity|]. intros H.
  change (str_contains "```" (String c s))
    with (prefix "```" (String c s) || str_contains "```" s) in H.
  apply orb_false_iff in H. destruct H as [Hp Hc].
  rewrite re_sub_fences_cons, Hp.
  destruct (prefix "```json" (String c s)) eqn:Ej.
  - apply prefix_json_fence in Ej. congruence.
  - rewrite IH by exact Hc. reflexivity.
Qed.

(** No fence marker is left in the cleaned text, although removing a marker
    can bring backticks together; so cleaning a second time changes
    nothing. *)
Theorem cleaned_text_has_no_fence (s : string) :
  str_contains "```" (re_sub_fences 0 s) = false /\
  re_sub_fences 0 (re_sub_fences 0 s) = re_sub_fences 0 s.
Proof.
  split; [apply re_sub_fences_clean|].
  apply re_sub_fences_unchanged, re_sub_fences_clean.
Qed.

(** A text without a fence marker is decoded as it is, apart from the
    whitespace around it: the parser hands [json.loads] the stripped text. *)
Theorem parse_ai_json_without_fence (loads : string -> outcome pyval)
    (s : string) :
  str_contains "```" s = false ->
  s <> "" ->
  parse_ai_json loads (PStr s)
  = match loads (strip s) with
    | Returned v => Returned v
    | Raised JSONDecodeError => Returned (fallback_mapping (PStr s))
    | Raised e => Raised e
    end.
Proof.
  intros Hc Hne. unfold parse_ai_json. cbn [truthy].
  destruct (String.eqb_spec s ""); [contradiction|]. cbn [negb].
  rewrite re_sub_fences_unchanged by exact Hc. reflexivity.
Qed.

Lemma parse_ai_json_without_fence_witness :
  str_contains "```" " 42 " = false /\ " 42 " <> "" /\
  parse_ai_json Json.loads (PStr " 42 ")
  = match Json.loads (strip " 42 ") with
    | Returned v => Returned v
    | Raised JSONDecodeError => Returned (fallback_mapping (PStr " 42 "))
    | Raised e => Raised e
    end.
Proof.
  assert (H1 : str_contains "```" " 42 " = false) by reflexivity.
  assert (H2 : " 42 " <> "") by discriminate.
  split; [exact H1|]. split; [exact H2|].
  exact (parse_ai_json_without_fence Json.loads " 42 " H1 H2).
Defined.

(** ** A completion inside a fence *)

Lemma str_contains_tick_cons (c : ascii) (s : string) :
  str_contains "`" (String c s) = false ->
  c <> "`"%char /\ str_contains "`" s = false.
Proof.
  change (str_contains "`" (String c s))
    with (prefix "`" (String c s) || str_contains "`" s).
  intros H. apply orb_false_iff in H. destruct H as [Hp Hc].
  split; [|exact Hc]. intros ->. destruct s; discriminate Hp.
Qed.

Lemma prefix_fence_head (c : ascii) (s : string) :
  c <> "`"%char -> prefix "```" (String c s) = false.
Proof.
  intros Hc. destruct (prefix "```" (String c s)) eqn:E; [|reflexivity].
  apply prefix_fence in E. destruct E as [r E]. simpl in E. congruence.
Qed.

(** Text without a backtick before a marker stays where it is. *)
Lemma re_sub_fences_after_plain (plain rest : string) :
  str_contains "`" plain = false ->
  re_sub_fences 0 (plain ++ rest) = plain ++ re_sub_fences 0 rest.
Proof.
  induction plain as [|c plain IH]; intros H; [reflexivity|].
  apply str_contains_tick_cons in H. destruct H as [Hc H].
  change (String c plain ++ rest) with (String c (plain ++ rest)).
  rewrite re_sub_fences_cons, (prefix_fence_head c _ Hc).
  destruct (prefix "```json" (String c (plain ++ rest))) eqn:Ej.
  - apply prefix_json_fence in Ej. rewrite (prefix_fence_head c _ Hc) in Ej.
    discriminate.
  - rewrite IH by exact H. reflexivity.
Qed.

Lemma rstrip_space_end (s : string) (c : ascii) :
  isspace c = true -> rstrip (s ++ String c "") = rstrip s.
Proof.
  intros Hc. induction s as [|a s IH]; simpl.
  - rewrite Hc. reflexivity.
  - rewrite IH. reflexivity.
Qed.

Lemma lstrip_append (s1 s2 : string) :
  lstrip (s1 ++ s2)
  = if forallb isspace (list_ascii_of_string s1) then lstrip s2
    else lstrip s1 ++ s2.
Proof.
  induction s1 as [|c s1 IH]; simpl; [reflexivity|].
  destruct (isspace c); simpl; [exact IH | reflexivity].
Qed.

Lemma strip_between_newlines (body : string) :
  strip (newline ++ body ++ newline) = strip body.
Proof.
  unfold strip. change (lstrip (newline ++ body ++ newline))
    with (lstrip (body ++ newline)).
  rewrite lstrip_append.
  destruct (forallb isspace (list_ascii_of_string body)) eqn:E.
  - apply strip_empty in E. unfold strip in E. rewrite E. reflexivity.
  - unfold newline. apply rstrip_space_end. reflexivity.
Qed.

(** A completion wrapped in a fence, with or without the language tag, on
    lines of its own, is decoded like the bare completion: the decoder is
    handed the same text. *)
Theorem parse_ai_json_fenced (loads : string -> outcome pyval)
    (body : string) (v : pyval) :
  str_contains "`" body = false ->
  loads (strip body) = Returned v ->
  parse_ai_json loads (PStr ("```json" ++ newline ++ body ++ newline ++ "```"))
  = Returned v /\
  parse_ai_json loads (PStr ("```" ++ newline ++ body ++ newline ++ "```"))
  = Returned v.
Proof.
  intros Hb Hl.
  assert (Hclean : re_sub_fences 0 (newline ++ body ++ newline ++ "```")
                   = newline ++ body ++ newline).
  { change (newline ++ body ++ newline ++ "```")
      with (String "010" (body ++ newline ++ "```")).
    assert (Hnl : prefix "```" (String "010" (body ++ newline ++ "```")) = false)
      by (apply prefix_fence_head; discriminate).
    rewrite re_sub_fences_cons, Hnl.
    destruct (prefix "```json" (String "010" (body ++ newline ++ "```"))) eqn:Ej.
    { apply prefix_json_fence in Ej. congruence. }
    rewrite re_sub_fences_after_plain by exact Hb.
    reflexivity. }
  split.
  - unfold parse_ai_json. cbn [truthy String.eqb append negb].
    change (re_sub_fences 0 (String "`" (String "`" (String "`"
              (String "j" (String "s" (String "o" (String "n"
                 (newline ++ body ++ newline ++ "```")))))))))
      with (re_sub_fences 0 (newline ++ body ++ newline ++ "```")).
    rewrite Hclean, strip_between_newlines, Hl. reflexivity.
  - unfold parse_ai_json. cbn [truthy String.eqb append negb].
    change (re_sub_fences 0 (String "`" (String "`" (String "`"
              (newline ++ body ++ newline ++ "```")))))
      with (re_sub_fences 0 (newline ++ body ++ newline ++ "```")).
    rewrite Hclean, strip_between_newlines, Hl. reflexivity.
Qed.

Lemma parse_ai_json_fenced_witness :
  str_contains "`" "{}" = false /\
  Json.loads (strip "{}") = Returned (PDict []) /\
  parse_ai_json Json.loads (PStr ("```json" ++ newline ++ "{}" ++ newline ++ "```"))
  = Returned (PDict []) /\
  parse_ai_json Json.loads (PStr ("```" ++ newline ++ "{}" ++ newline ++ "```"))
  = Returned (PDict []).
Proof.
  assert (H1 : str_contains "`" "{}" = false) by reflexivity.
  assert (H2 : Json.loads (strip "{}") = Returned (PDict [])) by reflexivity.
  split; [exact H1|]. split; [exact H2|].
  exact (parse_ai_json_fenced Json.loads "{}" (PDict []) H1 H2).
Defined.

(** ** Failures of the completion step *)

(** Whenever the completion step fails, by a status other than 200 or by a
    body of status 200 in which the content cannot be read, the client
    returns a dictionary and the parser raises [TypeError] on it. *)
Theorem completion_failure_breaks_parser {world : Type} {RT : Runtime world}
    (context : string) (w w' : world) (res : response) :
  post ChatCompletions context w = (Returned res, w') ->
  status_code res <> 200 \/ (exists e, completion_content res = Raised e) ->
  exists ai_raw,
    analyze_document_with_ai context w = (Returned ai_raw, w') /\
    is_mapping ai_raw = true /\
    parse_ai_json json_loads ai_raw = Raised TypeError.
Proof.
  intros Hpost Hfail. unfold analyze_document_with_ai, bindM, ret.
  rewrite Hpost.
  destruct (Z.eqb_spec (status_code res) 200) as [E|E]; cbn [negb].
  - destruct Hfail as [Hs|[e He]]; [contradiction|]. rewrite He.
    eexists. split; [reflexivity|]. split; reflexivity.
  - eexists. split; [reflexivity|]. split; reflexivity.
Qed.

Lemma completion_failure_breaks_parser_witness :
  post ChatCompletions "context" [ok "{}"]
  = (Returned {| status_code := 200; text := "{}" |}, []) /\
  (status_code {| status_code := 200; text := "{}" |} <> 200 \/
   exists e, completion_content {| status_code := 200; text := "{}" |} = Raised e) /\
  exists ai_raw,
    analyze_document_with_ai "context" [ok "{}"] = (Returned ai_raw, []) /\
    is_mapping ai_raw = true /\
    parse_ai_json json_loads ai_raw = Raised TypeError.
Proof.
  assert (H1 : post ChatCompletions "context" [ok "{}"]
               = (Returned {| status_code := 200; text := "{}" |}, []))
    by reflexivity.
  assert (H2 : status_code {| status_code := 200; text := "{}" |} <> 200 \/
               exists e, completion_content {| status_code := 200; text := "{}" |}
                         = Raised e)
    by (right; exists KeyError; reflexivity).
  split; [exact H1|]. split; [exact H2|].
  exact (completion_failure_breaks_parser "context" [ok "{}"] [] _ H1 H2).
Defined.

(** ** Degraded input gives the default report *)

(** An empty completion, and a completion that does not decode, end in the
    report of a mapping without keys: status [CLEAR], document type
    [Unknown], no issue, and the default message. *)
Theorem undecodable_completion_is_clear (loads : string -> outcome pyval)
    (s : string) :
  s = "" \/ loads (strip (re_sub_fences 0 s)) = Raised JSONDecodeError ->
  (ai_parsed <- parse_ai_json loads (PStr s) ;; aggregate ai_parsed)
  = Returned default_report.
Proof.
  intros [->|Hl]; [reflexivity|].
  destruct (String.eqb_spec s "") as [->|Hne]; [reflexivity|].
  rewrite (parse_ai_json_fallback loads s Hne Hl). reflexivity.
Qed.

Lemma undecodable_completion_is_clear_witness :
  ("The document is incomplete." = "" \/
   Json.loads (strip (re_sub_fences 0 "The document is incomplete."))
   = Raised JSONDecodeError) /\
  (ai_parsed <- parse_ai_json Json.loads (PStr "The document is incomplete.") ;;
   aggregate ai_parsed)
  = Returned default_report.
Proof.
  assert (H : "The document is incomplete." = "" \/
              Json.loads (strip (re_sub_fences 0 "The document is incomplete."))
              = Raised JSONDecodeError)
    by (right; reflexivity).
  split; [exact H|].
  exact (undecodable_completion_is_clear Json.loads _ H).
Defined.

(** ** The overlap between neighbours *)

Lemma str_slice_take (s : string) (a b m : Z) :
  0 <= a -> 0 <= b -> 0 <= m ->
  str_slice (str_slice s a b) 0 m = str_slice s a (Z.min (a + m) b).
Proof.
  intros Ha Hb Hm. apply list_of_string_inj.
  rewrite !list_of_str_slice by lia. cbn [Z.to_nat skipn].
  rewrite firstn_skipn_comm, firstn_firstn. do 2 f_equal. lia.
Qed.

(** Two neighbouring chunks share the overlap: what is left of a chunk
    after its first [chunk_size - overlap] characters is the first
    [overlap] characters of the next chunk. *)
Theorem chunk_text_overlap (text : string) (chunk_size overlap : Z)
    (chunks : list string) (k : nat) (c next : string) :
  0 <= overlap < chunk_size ->
  chunk_text_returns text chunk_size overlap chunks ->
  nth_error chunks k = Some c ->
  nth_error chunks (S k) = Some next ->
  drop_overlap (chunk_size - overlap) c = str_slice next 0 overlap.
Proof.
  intros Hov Hret Hc Hn.
  destruct (returned_chunk _ _ _ _ _ _ Hov Hret Hc) as [_ ->].
  destruct (returned_chunk _ _ _ _ _ _ Hov Hret Hn) as [_ ->].
  rewrite drop_overlap_slice, str_slice_take by nia.
  f_equal; lia.
Qed.

Lemma chunk_text_overlap_witness :
  0 <= 1 < 4 /\
  chunk_text_returns "abcdefgh" 4 1 ["abcd"; "defg"; "gh"] /\
  nth_error ["abcd"; "defg"; "gh"] 0 = Some "abcd" /\
  nth_error ["abcd"; "defg"; "gh"] 1 = Some "defg" /\
  drop_overlap (4 - 1) "abcd" = str_slice "defg" 0 1.
Proof.
  assert (H1 : 0 <= 1 < 4) by (split; [discriminate | reflexivity]).
  assert (H2 : chunk_text_returns "abcdefgh" 4 1 ["abcd"; "defg"; "gh"])
    by (exists 4%nat; reflexivity).
  split; [exact H1|]. split; [exact H2|].
  split; [reflexivity|]. split; [reflexivity|].
  exact (chunk_text_overlap "abcdefgh" 4 1 _ 0 "abcd" "defg" H1 H2
           eq_refl eq_refl).
Defined.

(** ** From the chunks to the store *)

Section ChunksToStore.

Context {world : Type} {RT : Runtime world} {F32 : Float32}.

(** The texts of the store are the chunks, in order, and there is at least
    one: the positions a search returns are positions of chunks. *)
Theorem store_texts_are_chunks (chunks : list string) (w w' : world)
    (embedded_chunks : list embedded) (idx : index) (texts : list string) :
  embed_chunks chunks w = (Returned embedded_chunks, w') ->
  build_vector_store embedded_chunks = Returned (idx, texts) ->
  texts = chunks /\ chunks <> [].
Proof.
  intros He Hb. unfold embed_chunks in He.
  apply embed_loop_returned in He. destruct He as (new & -> & Hmap & _).
  simpl in Hb. destruct new as [|first rest]; [discriminate Hb|].
  unfold build_vector_store in Hb.
  change (list_getitem (first :: rest) 0) with (Returned first) in Hb.
  cbn [bind] in Hb.
  destruct (py_len (embedding first)); [|discriminate].
  cbn [bind] in Hb.
  destruct (np_array_float32 (map embedding (first :: rest))); [|discriminate].
  cbn [bind] in Hb. destruct (index_add _ _); [|discriminate].
  cbn [bind] in Hb. injection Hb as _ <-.
  split; [exact Hmap|]. rewrite <- Hmap. discriminate.
Qed.

(** An embedding answer with a status other than 200 ends the request with
    the [RuntimeError] of the batch; the query is not embedded and the
    completion provider is not called. *)
Theorem validate_chunks_embedding_failure (chunks : list string) (w : world)
    (i : nat) (res : response) :
  nth_error (answers chunks w) i = Some (Returned res) ->
  status_code res <> 200 ->
  Forall usable (firstn i (answers chunks w)) ->
  validate_chunks chunks w
  = (Raised (RuntimeError "Embedding generation failed"),
     after_requests (firstn (S i) chunks) w).
Proof.
  intros Hi Hs Hall. unfold validate_chunks, bindM, embed_chunks.
  pose proof (embed_loop_aborts chunks [] w i res Hi Hs Hall) as Hf.
  pose proof (embed_loop_abort_world chunks [] w i res Hi Hs Hall) as Hw.
  destruct (embed_loop chunks [] w) as [o w1]. simpl in Hf, Hw. subst.
  reflexivity.
Qed.

End ChunksToStore.

Lemma store_texts_are_chunks_witness :
  embed_chunks ["alpha"; "beta"]
    [ok (embedding_body "[1,0]"); ok (embedding_body "[0,1]")]
  = (Returned
       [ {| emb_text := "alpha"; embedding := PList [PInt 1; PInt 0] |};
         {| emb_text := "beta"; embedding := PList [PInt 0; PInt 1] |} ], []) /\
  build_vector_store
    [ {| emb_text := "alpha"; embedding := PList [PInt 1; PInt 0] |};
      {| emb_text := "beta"; embedding := PList [PInt 0; PInt 1] |} ]
  = Returned (hello_index, ["alpha"; "beta"]) /\
  ["alpha"; "beta"] = ["alpha"; "beta"] /\ ["alpha"; "beta"] <> [].
Proof.
  assert (H1 : embed_chunks ["alpha"; "beta"]
                 [ok (embedding_body "[1,0]"); ok (embedding_body "[0,1]")]
               = (Returned
                    [ {| emb_text := "alpha";
                         embedding := PList [PInt 1; PInt 0] |};
                      {| emb_text := "beta";
                         embedding := PList [PInt 0; PInt 1] |} ], []))
    by reflexivity.
  assert (H2 : build_vector_store
                 [ {| emb_text := "alpha"; embedding := PList [PInt 1; PInt 0] |};
                   {| emb_text := "beta"; embedding := PList [PInt 0; PInt 1] |} ]
               = Returned (hello_index, ["alpha"; "beta"])) by reflexivity.
  split; [exact H1|]. split; [exact H2|].
  exact (store_texts_are_chunks _ _ _ _ _ _ H1 H2).
Defined.

Lemma validate_chunks_embedding_failure_witness :
  nth_error
    (answers ["a"; "b"; "c"]
       [ok (embedding_body "[1]");
        Returned {| status_code := 500; text := "" |};
        ok (embedding_body "[3]")]) 1
  = Some (Returned {| status_code := 500; text := "" |}) /\
  status_code {| status_code := 500; text := "" |} <> 200 /\
  Forall usable
    (firstn 1
       (answers ["a"; "b"; "c"]
          [ok (embedding_body "[1]");
           Returned {| status_code := 500; text := "" |};
           ok (embedding_body "[3]")])) /\
  validate_chunks ["a"; "b"; "c"]
    [ok (embedding_body "[1]");
     Returned {| status_code := 500; text := "" |};
     ok (embedding_body "[3]")]
  = (Raised (RuntimeError "Embedding generation failed"),
     after_requests (firstn 2 ["a"; "b"; "c"])
       [ok (embedding_body "[1]");
        Returned {| status_code := 500; text := "" |};
        ok (embedding_body "[3]")]).
Proof.
  assert (H2 : status_code {| status_code := 500; text := "" |} <> 200)
    by discriminate.
  assert (H3 : Forall usable
                 (firstn 1
                    (answers ["a"; "b"; "c"]
                       [ok (embedding_body "[1]");
                        Returned {| status_code := 500; text := "" |};
                        ok (embedding_body "[3]")]))).
  { constructor; [|constructor].
    exists {| status_code := 200; text := embedding_body "[1]" |}, (PList [PInt 1]).
    repeat split. }
  assert (H1 : nth_error
                 (answers ["a"; "b"; "c"]
                    [ok (embedding_body "[1]");
                     Returned {| status_code := 500; text := "" |};
                     ok (embedding_body "[3]")]) 1
               = Some (Returned {| status_code := 500; text := "" |}))
    by reflexivity.
  split; [exact H1|]. split; [exact H2|]. split; [exact H3|].
  exact (validate_chunks_embedding_failure ["a"; "b"; "c"] _ 1 _ H1 H2 H3).
Defined.
